(** * pymapd: type inference and columnar encoding of pandas tables

    A shallow embedding of [pymapd/_pandas_loaders.py]: the type resolver
    ([get_mapd_dtype] and its two helpers), the time-like cast
    ([thrift_cast]), the columnar encoder ([build_input_columnar]) and the
    schema describer ([build_row_desc]).

    Python exceptions are values of [PyExc] carried in the left summand of
    [Exc]; Python's [None] as the result of a function is [Datatypes.None]
    of an [option]. Column values are Python objects ([PyVal]); wire types
    and slot names are the strings the source uses. *)

From Stdlib Require Import ZArith List Ascii String DecimalString Bool Lia.
Import ListNotations.
Local Open Scope string_scope.
Local Open Scope list_scope.
Local Open Scope Z_scope.

Set Implicit Arguments.

(** ** Exceptions and the error monad *)

(** The exception classes the module can surface. Messages are left out:
    no caller in the source inspects them. *)
Inductive PyExc : Type :=
| TypeError
| IndexError
| ImportError
| KeyError
| AttributeError
| ValueError
| OverflowError
| UnboundLocalError.

Inductive Exc (A : Type) : Type :=
| Raise (e : PyExc)
| Ok (a : A).

Arguments Raise {A} e.
Arguments Ok {A} a.

Definition bind {A B : Type} (m : Exc A) (k : A -> Exc B) : Exc B :=
  match m with
  | Raise e => Raise e
  | Ok a => k a
  end.

Notation "x <- m ;; k" := (bind m (fun x => k))
  (at level 61, m at next level, right associativity).

Fixpoint mapM {A B : Type} (f : A -> Exc B) (l : list A) : Exc (list B) :=
  match l with
  | [] => Ok []
  | x :: xs => y <- f x ;; ys <- mapM f xs ;; Ok (y :: ys)
  end.

(** A dict lookup [d[k]]: a missing key raises [KeyError]. *)
Definition getitem {A : Type} (d : string -> option A) (k : string) : Exc A :=
  match d k with
  | Some v => Ok v
  | None => Raise KeyError
  end.

(** [k in {...}] on a set literal of strings. *)
Definition str_in (k : string) (l : list string) : bool :=
  existsb (String.eqb k) l.

(** ** Python values held by a column *)

(** The objects a column cell can hold. [VNone], [VNaN] (the float nan) and
    [VNaT] are pandas' three missing-value markers. [VDate] carries the day
    number since 1970-01-01, [VDatetime] the nanoseconds since the epoch,
    [VTime] the seconds since midnight, [VFloat m e] the finite float
    [m * 2^e]. [VOther] stands for an object of any other class. *)
Inductive PyVal : Type :=
| VNone
| VNaN
| VNaT
| VStr (s : string)
| VDate (days : Z)
| VDatetime (ns : Z)
| VTime (secs : Z)
| VInt (z : Z)
| VBool (b : bool)
| VFloat (m e : Z)
| VOther.

(** The classes the resolver tests with [isinstance]. *)
Inductive PyClass : Type :=
| C_str | C_date | C_datetime | C_time | C_int | C_bool | C_float
| C_NoneType | C_NaTType | C_object.

Definition type_of (v : PyVal) : PyClass :=
  match v with
  | VNone => C_NoneType
  | VNaN => C_float
  | VNaT => C_NaTType
  | VStr _ => C_str
  | VDate _ => C_date
  | VDatetime _ => C_datetime
  | VTime _ => C_time
  | VInt _ => C_int
  | VBool _ => C_bool
  | VFloat _ _ => C_float
  | VOther => C_object
  end.

(** Python's class hierarchy on these classes: [datetime.datetime] derives
    from [datetime.date], [bool] from [int], everything from [object]. *)
Definition issubclass (c d : PyClass) : bool :=
  match c, d with
  | _, C_object => true
  | C_str, C_str => true
  | C_date, C_date => true
  | C_datetime, C_datetime => true
  | C_datetime, C_date => true
  | C_time, C_time => true
  | C_int, C_int => true
  | C_bool, C_bool => true
  | C_bool, C_int => true
  | C_float, C_float => true
  | C_NoneType, C_NoneType => true
  | C_NaTType, C_NaTType => true
  | _, _ => false
  end.

Definition isinstance (v : PyVal) (c : PyClass) : bool :=
  issubclass (type_of v) c.

(** ** dtypes, Series and DataFrames (the pandas objects the module reads) *)

(** The kind of a dtype. A categorical dtype carries whether its categories
    are booleans, which is what pandas' [is_bool_dtype] looks at; a sparse or
    nullable extension dtype is represented by the kind of its values. *)
Inductive DKind : Type :=
| K_bool | K_int | K_uint | K_float | K_complex
| K_datetime64 | K_datetime64tz | K_timedelta64
| K_object | K_category (boolean : bool) | K_bytes | K_unicode | K_void.

Record DType : Type := mkDType { kind : DKind; itemsize : Z }.

Definition is_bool_dtype (d : DType) : bool :=
  match kind d with
  | K_bool => true
  | K_category boolean => boolean
  | _ => false
  end.

Definition is_integer_dtype (d : DType) : bool :=
  match kind d with K_int | K_uint => true | _ => false end.

Definition is_float_dtype (d : DType) : bool :=
  match kind d with K_float => true | _ => false end.

Definition is_object_dtype (d : DType) : bool :=
  match kind d with K_object => true | _ => false end.

Definition is_datetime64_any_dtype (d : DType) : bool :=
  match kind d with K_datetime64 | K_datetime64tz => true | _ => false end.

Definition int64 : DType := mkDType K_int 8.
Definition float64 : DType := mkDType K_float 8.
Definition object_ : DType := mkDType K_object 8.
Definition bool_ : DType := mkDType K_bool 1.

(** A Series: its dtype and its cells. The same record stands for the
    ndarray that [.values] exposes. Labels and row indexes are dropped by
    [.values] and are not modelled on a Series. *)
Record Series : Type := mkSeries { dtype : DType; values : list PyVal }.

Definition isnull_val (v : PyVal) : bool :=
  match v with
  | VNone | VNaN | VNaT => true
  | _ => false
  end.

(** [data.isnull().values] *)
Definition isnull (s : Series) : list bool := map isnull_val (values s).

(** [data.hasnans] *)
Definition hasnans (s : Series) : bool := existsb isnull_val (values s).

(** [data.dropna()] *)
Definition dropna (s : Series) : Series :=
  mkSeries (dtype s) (filter (fun v => negb (isnull_val v)) (values s)).

(** [data.iloc[0]] *)
Definition iloc0 (s : Series) : Exc PyVal :=
  match values s with
  | [] => Raise IndexError
  | v :: _ => Ok v
  end.

(** [data.fillna(v)]: every missing cell is replaced by [v]. *)
Definition fillna (s : Series) (v : PyVal) : Series :=
  mkSeries (dtype s) (map (fun x => if isnull_val x then v else x) (values s)).

Definition int64_min : Z := - 2 ^ 63.
Definition int64_max : Z := 2 ^ 63 - 1.

Definition in_int64 (z : Z) : bool := (int64_min <=? z) && (z <=? int64_max).

(** The digits of a decimal literal, most significant first. *)
Fixpoint digits_val (acc : Z) (s : string) : option Z :=
  match s with
  | EmptyString => Some acc
  | String c r =>
      let n := Z.of_nat (Ascii.nat_of_ascii c) in
      if (48 <=? n) && (n <=? 57) then digits_val (10 * acc + (n - 48)) r
      else None
  end.

Definition is_space (c : ascii) : bool :=
  let n := Ascii.nat_of_ascii c in
  Nat.eqb n 32 || (Nat.leb 9 n && Nat.leb n 13).

Fixpoint lstrip (s : string) : string :=
  match s with
  | String c r => if is_space c then lstrip r else s
  | EmptyString => EmptyString
  end.

Fixpoint rstrip (s : string) : string :=
  match s with
  | EmptyString => EmptyString
  | String c r =>
      match rstrip r with
      | EmptyString => if is_space c then EmptyString else String c EmptyString
      | r' => String c r'
      end
  end.

Definition unsigned_of_str (s : string) : option Z :=
  match s with
  | EmptyString => None
  | _ => digits_val 0 s
  end.

(** A decimal literal as [int()] reads it: surrounding white space, an
    optional sign, digits. *)
Definition int_of_str (s : string) : option Z :=
  match lstrip (rstrip s) with
  | String "-"%char r => option_map Z.opp (unsigned_of_str r)
  | String "+"%char r => unsigned_of_str r
  | r => unsigned_of_str r
  end.

(** Python's [int(x)] on a cell, as the conversion to an integer dtype
    applies it: ints and bools convert, a finite float truncates toward
    zero, a decimal literal parses, a missing marker or an object of another
    class raises. *)
Definition py_int (v : PyVal) : Exc Z :=
  match v with
  | VInt z => Ok z
  | VBool b => Ok (if b then 1 else 0)
  | VFloat m e => Ok (if 0 <=? e then m * 2 ^ e else Z.quot m (2 ^ (- e)))
  | VStr s => match int_of_str s with Some z => Ok z | None => Raise ValueError end
  | VNaN | VNaT => Raise ValueError
  | VNone | VDate _ | VDatetime _ | VTime _ | VOther => Raise TypeError
  end.

Definition to_int64 (v : PyVal) : Exc PyVal :=
  z <- py_int v ;;
  if in_int64 z then Ok (VInt z) else Raise OverflowError.

(** [data.astype('int64')] *)
Definition astype_int64 (s : Series) : Exc Series :=
  vs <- mapM to_int64 (values s) ;;
  Ok (mkSeries int64 vs).

(** ** The type resolver *)

(** [get_mapd_type_from_known]: for cases where pandas' type system
    matches. *)
Definition get_mapd_type_from_known (dt : DType) : Exc string :=
  if is_bool_dtype dt then Ok "BOOL"
  else if is_integer_dtype dt then
    if itemsize dt <=? 1 then Ok "TINYINT"
    else if itemsize dt =? 2 then Ok "SMALLINT"
    else if itemsize dt =? 4 then Ok "INT"
    else Ok "BIGINT"
  else if is_float_dtype dt then
    if itemsize dt <=? 4 then Ok "FLOAT"
    else Ok "DOUBLE"
  else if is_datetime64_any_dtype dt then Ok "TIMESTAMP"
  else Raise TypeError.

(** [get_mapd_type_from_object]: for cases where the type system
    mismatches. The [try] re-raises the [IndexError] of [iloc[0]]. *)
Definition get_mapd_type_from_object (data : Series) : Exc string :=
  match iloc0 (dropna data) with
  | Raise IndexError => Raise IndexError
  | Raise e => Raise e
  | Ok val =>
      if isinstance val C_str then Ok "STR"
      else if isinstance val C_date then Ok "DATE"
      else if isinstance val C_time then Ok "TIME"
      else if isinstance val C_int then Ok "INT"
      else Raise TypeError
  end.

(** [get_mapd_dtype] *)
Definition get_mapd_dtype (data : Series) : Exc string :=
  if is_object_dtype (dtype data) then get_mapd_type_from_object data
  else get_mapd_type_from_known (dtype data).

(** ** The helpers and tables of [pymapd/_utils.py]

    [_utils.py] is imported by the module but is not part of the verified
    source: its three conversions and its two lookup tables are taken as
    parameters. A conversion may raise; a table is a partial function on
    keys. *)
Record Utils : Type := mkUtils {
  date_to_seconds : Series -> Exc Series;
  time_to_seconds : PyVal -> Exc PyVal;
  datetime_to_seconds : Series -> Exc Series;
  mapd_to_na : string -> option PyVal;
  mapd_to_slot : string -> option string
}.

(** The double nearest to the integer [z], ties to even, as mantissa and
    exponent. *)
Definition float_of_int (z : Z) : PyVal :=
  if Z.abs z <? 2 ^ 53 then VFloat z 0
  else
    let e := Z.log2 (Z.abs z) - 52 in
    let q := Z.abs z / 2 ^ e in
    let r := Z.abs z mod 2 ^ e in
    let half := 2 ^ (e - 1) in
    let q' := if (half <? r) || ((r =? half) && Z.odd q) then q + 1 else q in
    VFloat (Z.sgn z * q') e.

Definition uint64 : DType := mkDType K_uint 8.
Definition datetime64 : DType := mkDType K_datetime64 8.

(** The dtype pandas infers for a list of objects: bools give bool, ints
    give int64 (uint64 when they only fit there), ints, floats and missing
    markers together give float64, datetimes with missing markers give
    datetime64, anything else stays object. *)
Definition infer_dtype (vs : list PyVal) : DType :=
  match vs with
  | [] => float64
  | _ =>
      if forallb (fun v => match v with VBool _ => true | _ => false end) vs
      then bool_
      else if forallb (fun v => match v with VInt z => in_int64 z | _ => false end) vs
      then int64
      else if forallb (fun v => match v with
                                | VInt z => (0 <=? z) && (z <? 2 ^ 64)
                                | _ => false end) vs
      then uint64
      else if forallb (fun v => match v with
                                | VInt z => in_int64 z
                                | VFloat _ _ | VNaN | VNone => true
                                | _ => false end) vs
              && existsb (fun v => match v with
                                   | VInt _ | VFloat _ _ | VNaN => true
                                   | _ => false end) vs
      then float64
      else if forallb (fun v => match v with
                                | VDatetime _ | VNaT | VNone => true
                                | _ => false end) vs
              && existsb (fun v => match v with
                                   | VDatetime _ | VNaT => true
                                   | _ => false end) vs
      then datetime64
      else object_
  end.

(** The cell as an array of dtype [dt] stores it: a float array holds ints
    as floats and None as nan, a datetime array holds None as NaT. *)
Definition coerce_cell (dt : DType) (v : PyVal) : PyVal :=
  match kind dt, v with
  | K_float, VInt z => float_of_int z
  | K_float, VNone => VNaN
  | K_datetime64, VNone => VNaT
  | _, _ => v
  end.

(** [pd.Series(iterable)]: a fresh Series whose dtype pandas infers from the
    cells, which are stored under that dtype. *)
Definition pd_Series (vs : list PyVal) : Series :=
  mkSeries (infer_dtype vs) (map (coerce_cell (infer_dtype vs)) vs).

(** ** Thrift structures

    Modelled from the spec: [mapd.ttypes] (the generated thrift classes
    [TColumnData], [TColumn], [TTypeInfo], [TColumnType]) is missing from the
    source. [TColumnData] is the tagged union of the integer, float and
    string buffers; a field that was not passed is [None]. *)
Record TColumnData : Type := mkTColumnData {
  int_col : option Series;
  real_col : option Series;
  str_col : option Series
}.

Record TColumn : Type := mkTColumn {
  data : TColumnData;
  nulls : list bool
}.

Record TTypeInfo : Type := mkTTypeInfo { type : Z }.

Record TColumnType : Type := mkTColumnType {
  col_name : string;
  col_type : TTypeInfo
}.

(** [TColumnData] built from the keyword dict [{slot: buf}]: a keyword
    that is not a field raises [TypeError]. *)
Definition TColumnData_kwargs (slot : string) (buf : Series) : Exc TColumnData :=
  if String.eqb slot "int_col" then Ok (mkTColumnData (Some buf) None None)
  else if String.eqb slot "real_col" then Ok (mkTColumnData None (Some buf) None)
  else if String.eqb slot "str_col" then Ok (mkTColumnData None None (Some buf))
  else Raise TypeError.

(** The buffer a [TColumnData] carries, whichever slot holds it. *)
Definition buffer_of (d : TColumnData) : option Series :=
  match int_col d, real_col d, str_col d with
  | Some b, _, _ => Some b
  | None, Some b, _ => Some b
  | None, None, b => b
  end.

(** ** DataFrames *)

(** The row index of a DataFrame: a plain index or a MultiIndex. A level is
    its name, if it has one, and its values row by row. *)
Inductive Index : Type :=
| PlainIndex (name : option string) (cells : Series)
| MultiIndex (first : option string * Series)
             (others : list (option string * Series)).

Definition index_levels (ix : Index) : list (option string * Series) :=
  match ix with
  | PlainIndex name cells => [(name, cells)]
  | MultiIndex first others => first :: others
  end.

(** A DataFrame: its index and the labelled columns in order. Labels are
    taken to be distinct, so that [df[col]] for [col] in [df.columns] is the
    column at that position. *)
Record DataFrame : Type := mkDataFrame {
  index : Index;
  columns : list (string * Series)
}.

(** [len(df)] *)
Definition len (df : DataFrame) : nat :=
  match index df with
  | PlainIndex _ cells => List.length (values cells)
  | MultiIndex (_, cells) _ => List.length (values cells)
  end.

(** [pd.RangeIndex(n)] as a column of ints. *)
Definition RangeIndex (n : nat) : Series :=
  mkSeries int64 (map (fun i => VInt (Z.of_nat i)) (seq 0 n)).

(** The name ["level_i"]. *)
Definition level_label (i : nat) : string :=
  String.append "level_" (NilEmpty.string_of_uint (Nat.to_uint i)).

Fixpoint fill_missing_names (i : nat) (levels : list (option string * Series))
  : list (string * Series) :=
  match levels with
  | [] => []
  | (name, cells) :: rest =>
      (match name with Some n => n | None => level_label i end, cells)
      :: fill_missing_names (S i) rest
  end.

(** The columns that [reset_index] makes of the index: a plain index gives
    one, under its own name or else under ["index"] (["level_0"] when a
    column ["index"] exists); a MultiIndex gives one per level, an unnamed
    level [i] under ["level_i"]. *)
Definition index_columns (df : DataFrame) : list (string * Series) :=
  match index df with
  | PlainIndex name cells =>
      [(match name with
        | Some n => n
        | None => if str_in "index" (map fst (columns df))
                  then "level_0" else "index"
        end, cells)]
  | MultiIndex first others => fill_missing_names 0 (first :: others)
  end.

(** [DataFrame.insert(0, name, cells)]: a label that is already a column
    raises [ValueError]. *)
Definition insert_front (c : string * Series)
  (cols : Exc (list (string * Series))) : Exc (list (string * Series)) :=
  cs <- cols ;;
  if str_in (fst c) (map fst cs) then Raise ValueError else Ok (c :: cs).

(** [df.reset_index()]: the index levels are inserted in front of the
    columns, the last level first, so that they end up in level order, and
    the frame gets a fresh positional index. *)
Definition reset_index (df : DataFrame) : Exc DataFrame :=
  cols <- fold_right insert_front (Ok (columns df)) (index_columns df) ;;
  Ok (mkDataFrame (PlainIndex None (RangeIndex (len df))) cols).

(** An argument of [build_row_desc]: any Python object. *)
Inductive PyObject : Type :=
| Obj_DataFrame (df : DataFrame)
| Obj_RecordBatch
| Obj_Table
| Obj_Series (s : Series)
| Obj_other.

(** ** The encoder and the schema describer *)

Section Loaders.

Variable U : Utils.

(** [thrift_cast]: cast data type to the expected thrift types. A wire type
    outside the three branches falls off the end of the function, which
    returns Python's [None]. *)
Definition thrift_cast (data : Series) (mapd_type : string)
  : Exc (option Series) :=
  if String.eqb mapd_type "TIMESTAMP" then
    s <- datetime_to_seconds U data ;; Ok (Some s)
  else if String.eqb mapd_type "TIME" then
    vs <- mapM (time_to_seconds U) (values data) ;; Ok (Some (pd_Series vs))
  else if String.eqb mapd_type "DATE" then
    s <- date_to_seconds U data ;; Ok (Some s)
  else Ok None.

(** The local variables of [build_input_columnar] that live across loop
    iterations. [loop_nulls] is unbound ([None]) before the first
    assignment. *)
Record LoopState : Type := mkLoopState {
  input_cols : list TColumn;
  all_nulls : option (list bool);
  loop_nulls : option (list bool)
}.

Definition loop_init : LoopState := mkLoopState [] None None.

(** A method call on the local [data], which holds a Series or [None]. *)
Definition as_series (d : option Series) : Exc Series :=
  match d with
  | Some s => Ok s
  | None => Raise AttributeError
  end.

(** One iteration of the [for col in df.columns] loop, on [data = df[col]];
    [n] is [len(df)]. *)
Definition loop_body (n : nat) (st : LoopState) (data : Series)
  : Exc LoopState :=
  mapd_type <- get_mapd_dtype data ;;
  let has_nulls := hasnans data in
  let '(nulls1, all_nulls1) :=
    if has_nulls then (Some (isnull data), all_nulls st)
    else match all_nulls st with
         | None => let m := repeat false n in (Some m, Some m)
         | Some _ => (loop_nulls st, all_nulls st)
         end in
  data1 <- (if str_in mapd_type ["TIME"; "TIMESTAMP"; "DATE"]
            then thrift_cast data mapd_type
            else Ok (Some data)) ;;
  data2 <- (if has_nulls then
              s <- as_series data1 ;;
              na <- getitem (mapd_to_na U) mapd_type ;;
              let filled := fillna s na in
              if negb (str_in mapd_type ["FLOAT"; "DOUBLE"; "VARCHAR"; "STR"])
              then s' <- astype_int64 filled ;; Ok (Some s')
              else Ok (Some filled)
            else Ok data1) ;;
  slot <- getitem (mapd_to_slot U) mapd_type ;;
  buf <- as_series data2 ;;
  cdata <- TColumnData_kwargs slot buf ;;
  nulls2 <- (match nulls1 with
             | Some m => Ok m
             | None => Raise UnboundLocalError
             end) ;;
  Ok (mkLoopState (input_cols st ++ [mkTColumn cdata nulls2])
                  all_nulls1 nulls1).

Fixpoint for_columns (n : nat) (st : LoopState) (cols : list (string * Series))
  : Exc LoopState :=
  match cols with
  | [] => Ok st
  | (_, data) :: rest =>
      st' <- loop_body n st data ;;
      for_columns n st' rest
  end.

(** [build_input_columnar] *)
Definition build_input_columnar (df : DataFrame) (preserve_index : bool)
  : Exc (list TColumn) :=
  df1 <- (if preserve_index then reset_index df else Ok df) ;;
  st <- for_columns (len df1) loop_init (columns df1) ;;
  Ok (input_cols st).

(** The attributes of the thrift enum [TDatumType] (part of [mapd.ttypes]):
    a name that is not a member raises [AttributeError]. *)
Variable TDatumType : string -> option Z.

Definition getattr_TDatumType (name : string) : Exc Z :=
  match TDatumType name with
  | Some v => Ok v
  | None => Raise AttributeError
  end.

(** [build_row_desc]; [pandas_importable] tells whether [import pandas]
    succeeds. *)
Definition build_row_desc (pandas_importable : bool) (obj : PyObject)
  (preserve_index : bool) : Exc (list TColumnType) :=
  if negb pandas_importable then Raise ImportError
  else
    match obj with
    | Obj_DataFrame df =>
        df1 <- (if preserve_index then reset_index df else Ok df) ;;
        dtypes <- mapM (fun c : string * Series =>
                          t <- get_mapd_dtype (snd c) ;; Ok (fst c, t))
                       (columns df1) ;;
        mapM (fun nt : string * string =>
                v <- getattr_TDatumType (snd nt) ;;
                Ok (mkTColumnType (fst nt) (mkTTypeInfo v)))
             dtypes
    | _ => Raise TypeError
    end.

End Loaders.

(** ** A concrete [_utils] and concrete tables, to run the code on *)

(** Modelled from the spec: [pymapd/_utils.py] is missing from the source.
    The conversions follow section 4.2 (whole seconds since the epoch, or
    since midnight), keep a missing marker as it is and reject a value of
    another class; the tables follow section 4.3 (the minimum of the integer
    width, the float nan, an empty placeholder string; integer, float and
    string slots). *)
Module ExampleUtils.

Definition seconds_cell (conv : PyVal -> option Z) (v : PyVal) : Exc PyVal :=
  if isnull_val v then Ok v
  else match conv v with
       | Some z => Ok (VInt z)
       | None => Raise TypeError
       end.

Definition date_cell : PyVal -> Exc PyVal :=
  seconds_cell (fun v => match v with
                         | VDate d => Some (86400 * d)
                         | _ => None
                         end).

Definition time_cell : PyVal -> Exc PyVal :=
  seconds_cell (fun v => match v with
                         | VTime t => Some t
                         | _ => None
                         end).

Definition datetime_cell : PyVal -> Exc PyVal :=
  seconds_cell (fun v => match v with
                         | VDatetime ns => Some (ns / 10 ^ 9)
                         | _ => None
                         end).

Definition cellwise (f : PyVal -> Exc PyVal) (s : Series) : Exc Series :=
  vs <- mapM f (values s) ;; Ok (pd_Series vs).

Definition na (t : string) : option PyVal :=
  if str_in t ["BOOL"; "TINYINT"] then Some (VInt (- 2 ^ 7))
  else if String.eqb t "SMALLINT" then Some (VInt (- 2 ^ 15))
  else if String.eqb t "INT" then Some (VInt (- 2 ^ 31))
  else if str_in t ["BIGINT"; "DATE"; "TIME"; "TIMESTAMP"]
  then Some (VInt (- 2 ^ 63))
  else if str_in t ["FLOAT"; "DOUBLE"] then Some VNaN
  else if String.eqb t "STR" then Some (VStr EmptyString)
  else None.

Definition slot (t : string) : option string :=
  if str_in t ["BOOL"; "TINYINT"; "SMALLINT"; "INT"; "BIGINT";
               "DATE"; "TIME"; "TIMESTAMP"] then Some "int_col"
  else if str_in t ["FLOAT"; "DOUBLE"] then Some "real_col"
  else if String.eqb t "STR" then Some "str_col"
  else None.

Definition utils : Utils :=
  mkUtils (cellwise date_cell) time_cell (cellwise datetime_cell) na slot.

(** Modelled from the spec: the members of the thrift enum [TDatumType]
    ([mapd.ttypes] is missing from the source), one per wire type. *)
Definition datum_type (t : string) : option Z :=
  if String.eqb t "SMALLINT" then Some 0
  else if String.eqb t "INT" then Some 1
  else if String.eqb t "BIGINT" then Some 2
  else if String.eqb t "FLOAT" then Some 3
  else if String.eqb t "DOUBLE" then Some 5
  else if String.eqb t "STR" then Some 6
  else if String.eqb t "TIME" then Some 7
  else if String.eqb t "TIMESTAMP" then Some 8
  else if String.eqb t "DATE" then Some 9
  else if String.eqb t "BOOL" then Some 10
  else if String.eqb t "TINYINT" then Some 11
  else None.

(** Three columns of two rows; only the middle one has a missing cell. *)
Definition frame3 : DataFrame :=
  mkDataFrame (PlainIndex None (RangeIndex 2))
    [ ("a", mkSeries int64 [VInt 1; VInt 2]);
      ("b", mkSeries float64 [VNaN; VFloat 3 (- 1)]);
      ("c", mkSeries int64 [VInt 3; VInt 4]) ].

(** An object column of dates with a missing cell, and a column of
    strings. *)
Definition frame_dates : DataFrame :=
  mkDataFrame (PlainIndex None (RangeIndex 3))
    [ ("d", mkSeries object_ [VDate 1; VNone; VDate 2]);
      ("s", mkSeries object_ [VStr "x"; VStr "y"; VStr "z"]) ].

(** A good column, then an object column with nothing but missing
    markers. *)
Definition frame_missing : DataFrame :=
  mkDataFrame (PlainIndex None (RangeIndex 2))
    [ ("a", mkSeries int64 [VInt 1; VInt 2]);
      ("m", mkSeries object_ [VNone; VNaN]);
      ("c", mkSeries float64 [VFloat 1 0; VFloat 1 1]) ].

(** What the encoder returns for the first column of [frame_dates]. *)
Definition dates_encoded : TColumn :=
  mkTColumn
    (mkTColumnData
       (Some (mkSeries int64 [VInt 86400; VInt (- 2 ^ 63); VInt 172800]))
       None None)
    [false; true; false].

(** What the encoder returns for the first column of [frame3]. *)
Definition a_encoded : TColumn :=
  mkTColumn
    (mkTColumnData (Some (mkSeries int64 [VInt 1; VInt 2])) None None)
    [false; false].

End ExampleUtils.

(** ** Notions used to state the properties *)

(** The first cell of a column that is not a missing marker. *)
Definition first_valid (s : Series) : option PyVal :=
  find (fun v => negb (isnull_val v)) (values s).

(** The resolution of an object column as the specification words it:
    string, date-only, time-only and plain integer values have a wire type,
    anything else is a [TypeError]. *)
Definition worded_object_type (v : PyVal) : Exc string :=
  match v with
  | VStr _ => Ok "STR"
  | VDate _ => Ok "DATE"
  | VTime _ => Ok "TIME"
  | VInt _ => Ok "INT"
  | _ => Raise TypeError
  end.

(** The resolution of an object column by the class of the sampled value,
    subclasses included. *)
Definition sampled_object_type (v : PyVal) : Exc string :=
  match type_of v with
  | C_str => Ok "STR"
  | C_date | C_datetime => Ok "DATE"
  | C_time => Ok "TIME"
  | C_int | C_bool => Ok "INT"
  | _ => Raise TypeError
  end.

Definition time_like (t : string) : bool :=
  str_in t ["TIME"; "TIMESTAMP"; "DATE"].

Definition int_family (t : string) : bool :=
  negb (str_in t ["FLOAT"; "DOUBLE"; "VARCHAR"; "STR"]).

(** Column [c] is what the conversion of [_utils] for the time-like wire
    type [t] returns on the column [s]. *)
Definition cast_by_utils (U : Utils) (s : Series) (t : string) (c : Series)
  : Prop :=
  (t = "TIMESTAMP" /\ datetime_to_seconds U s = Ok c) \/
  (t = "TIME" /\
   exists vs, mapM (time_to_seconds U) (values s) = Ok vs /\ c = pd_Series vs) \/
  (t = "DATE" /\ date_to_seconds U s = Ok c).

(** A cell that is a missing marker or converts to an int64. *)
Definition missing_or_int64 (x : PyVal) : Prop :=
  isnull_val x = true \/ exists z, py_int x = Ok z /\ in_int64 z = true.

(** The column as it stands after the time-like step of the loop body. *)
Definition normalized (U : Utils) (s : Series) (t : string)
  : Exc (option Series) :=
  if time_like t then thrift_cast U s t else Ok (Some s).

(** The value side of one loop iteration: the [TColumnData] built for a
    column, which does not depend on the loop state. *)
Definition column_data (U : Utils) (s : Series) : Exc TColumnData :=
  t <- get_mapd_dtype s ;;
  d1 <- normalized U s t ;;
  d2 <- (if hasnans s then
           c <- as_series d1 ;;
           na <- getitem (mapd_to_na U) t ;;
           if int_family t
           then c' <- astype_int64 (fillna c na) ;; Ok (Some c')
           else Ok (Some (fillna c na))
         else Ok d1) ;;
  slot <- getitem (mapd_to_slot U) t ;;
  buf <- as_series d2 ;;
  TColumnData_kwargs slot buf.

(** The mask side of one loop iteration, given the state before it. *)
Definition column_mask (n : nat) (st : LoopState) (s : Series)
  : option (list bool) :=
  if hasnans s then Some (isnull s)
  else match all_nulls st with
       | None => Some (repeat false n)
       | Some _ => loop_nulls st
       end.

(** The frame the loops run over. *)
Definition frame_of (df : DataFrame) (preserve_index : bool) : Exc DataFrame :=
  if preserve_index then reset_index df else Ok df.

(** The shared all-false mask after one loop iteration. *)
Definition next_all_nulls (n : nat) (st : LoopState) (s : Series)
  : option (list bool) :=
  if hasnans s then all_nulls st
  else match all_nulls st with
       | None => Some (repeat false n)
       | Some a => Some a
       end.

(** Column [s] stands at position [i] of the frame that
    [build_input_columnar df preserve_index] runs over, the call returns,
    and [tc] stands at position [i] of its result. *)
Definition encoded_at (U : Utils) (df : DataFrame) (preserve_index : bool)
  (i : nat) (s : Series) (tc : TColumn) : Prop :=
  exists (df1 : DataFrame) (name : string) (out : list TColumn),
    frame_of df preserve_index = Ok df1 /\
    nth_error (columns df1) i = Some (name, s) /\
    build_input_columnar U df preserve_index = Ok out /\
    nth_error out i = Some tc.

(** Schema entry [r] describes column [c]: same label, and the member of
    [TDatumType] named by the resolved wire type. *)
Definition describes (TDatumType : string -> option Z) (c : string * Series)
  (r : TColumnType) : Prop :=
  col_name r = fst c /\
  exists t : string,
    get_mapd_dtype (snd c) = Ok t /\ TDatumType t = Some (type (col_type r)).

(** Encoded column [tc] carries the value side of column [c]. *)
Definition encodes (U : Utils) (c : string * Series) (tc : TColumn) : Prop :=
  column_data U (snd c) = Ok (data tc).

(** The wire types the resolver can return. *)
Definition wire_types : list string :=
  ["BOOL"; "TINYINT"; "SMALLINT"; "INT"; "BIGINT"; "FLOAT"; "DOUBLE";
   "TIMESTAMP"; "STR"; "DATE"; "TIME"].

(** ** Widening of int8 columns *)

Definition int8 : DType := mkDType K_int 1.
Definition int16 : DType := mkDType K_int 2.

(** The two's complement value of [z] on [bits] bits. *)
Definition wrap_signed (bits : Z) (z : Z) : Z :=
  (z + 2 ^ (bits - 1)) mod 2 ^ bits - 2 ^ (bits - 1).

Definition in_int8 (z : Z) : bool := (- 2 ^ 7 <=? z) && (z <=? 2 ^ 7 - 1).

(** The conversion of one cell to a 2-byte integer; an integer cast wraps
    around. *)
Definition to_int16 (v : PyVal) : Exc PyVal :=
  z <- py_int v ;; Ok (VInt (wrap_signed 16 z)).

(** [data.astype('i2')] on one column. *)
Definition astype_i2 (s : Series) : Exc Series :=
  vs <- mapM to_int16 (values s) ;;
  Ok (mkSeries int16 vs).

(** The dtypes that [select_dtypes(include=['i1'])] keeps: the signed
    1-byte integer. *)
Definition is_int8 (d : DType) : bool :=
  match kind d with
  | K_int => itemsize d =? 1
  | _ => false
  end.

(** The effect of [data[cols] = data[cols].astype('i2')] on one column,
    [cols] being the int8 columns. *)
Definition widen_column (c : string * Series) : Exc (string * Series) :=
  if is_int8 (dtype (snd c)) then
    s' <- astype_i2 (snd c) ;; Ok (fst c, s')
  else Ok c.

(** [_cast_int8]: the DataFrame is updated in place and returned; the
    result stands for both. Any other object is returned as it is. *)
Definition _cast_int8 (data : PyObject) : Exc PyObject :=
  match data with
  | Obj_DataFrame df =>
      cols <- mapM widen_column (columns df) ;;
      Ok (Obj_DataFrame (mkDataFrame (index df) cols))
  | _ => Ok data
  end.

(** Every column of the frame has as many cells as the frame has rows. *)
Definition aligned (df : DataFrame) : Prop :=
  Forall (fun c : string * Series => List.length (values (snd c)) = len df)
         (columns df).

(** The cells of a well-formed int8 column. *)
Definition int8_cells (s : Series) : Prop :=
  Forall (fun v => exists z, v = VInt z /\ in_int8 z = true) (values s).

(** Exactly the field named [slot] of [d] is set, and it holds [buf]. *)
Definition only_slot (slot : string) (buf : Series) (d : TColumnData) : Prop :=
  (slot = "int_col" /\ d = mkTColumnData (Some buf) None None) \/
  (slot = "real_col" /\ d = mkTColumnData None (Some buf) None) \/
  (slot = "str_col" /\ d = mkTColumnData None None (Some buf)).

(** Tables to run the widening and the encoder on. *)
Module ExampleFrames.

Definition small : DataFrame :=
  mkDataFrame (PlainIndex None (RangeIndex 2))
    [ ("t", mkSeries int8 [VInt (-128); VInt 127]);
      ("u", mkSeries (mkDType K_uint 1) [VInt 0; VInt 255]);
      ("f", mkSeries float64 [VNaN; VFloat 3 (- 1)]) ].

Definition small_widened : DataFrame :=
  mkDataFrame (PlainIndex None (RangeIndex 2))
    [ ("t", mkSeries int16 [VInt (-128); VInt 127]);
      ("u", mkSeries (mkDType K_uint 1) [VInt 0; VInt 255]);
      ("f", mkSeries float64 [VNaN; VFloat 3 (- 1)]) ].

(** What the encoder returns for the column ["f"] of [small]. *)
Definition f_encoded : TColumn :=
  mkTColumn
    (mkTColumnData None
       (Some (mkSeries float64 [VNaN; VFloat 3 (- 1)])) None)
    [true; false].

(** A [_utils] without a sentinel for DOUBLE, and one without a slot for
    it. *)
Definition utils_no_na : Utils :=
  mkUtils (date_to_seconds ExampleUtils.utils)
          (time_to_seconds ExampleUtils.utils)
          (datetime_to_seconds ExampleUtils.utils)
          (fun t => if String.eqb t "DOUBLE" then None else ExampleUtils.na t)
          ExampleUtils.slot.

Definition utils_no_slot : Utils :=
  mkUtils (date_to_seconds ExampleUtils.utils)
          (time_to_seconds ExampleUtils.utils)
          (datetime_to_seconds ExampleUtils.utils)
          ExampleUtils.na
          (fun t => if String.eqb t "DOUBLE" then None else ExampleUtils.slot t).

(** A [TDatumType] without the member TINYINT. *)
Definition datum_type_no_tinyint (t : string) : option Z :=
  if String.eqb t "TINYINT" then None else ExampleUtils.datum_type t.

(** A column of times with a missing cell. *)
Definition times : Series :=
  mkSeries object_ [VTime 1; VNone; VTime 86399].

(** A frame without any missing cell. *)
Definition plain : DataFrame :=
  mkDataFrame (PlainIndex None (RangeIndex 2))
    [ ("a", mkSeries int64 [VInt 1; VInt 2]);
      ("s", mkSeries object_ [VStr "x"; VStr "y"]) ].

(** Modelled from the spec: [datetime_to_seconds] of [_utils.py], which is
    missing from the source, after section 4.2, "convert each value to an
    integer count of seconds since a fixed epoch", read on the stored cells:
    a datetime64 cell is its int64 count of nanoseconds, NaT being the int64
    minimum, and every count is floor-divided by [10^9]. *)
Definition stored_seconds (v : PyVal) : Exc PyVal :=
  match v with
  | VDatetime ns => Ok (VInt (ns / 10 ^ 9))
  | VNaT => Ok (VInt (int64_min / 10 ^ 9))
  | _ => Raise TypeError
  end.

Definition utils_stored : Utils :=
  mkUtils (date_to_seconds ExampleUtils.utils)
          (time_to_seconds ExampleUtils.utils)
          (fun s => vs <- mapM stored_seconds (values s) ;;
                    Ok (mkSeries int64 vs))
          ExampleUtils.na ExampleUtils.slot.

(** A datetime64 column with a missing cell. *)
Definition stamps : DataFrame :=
  mkDataFrame (PlainIndex None (RangeIndex 2))
    [ ("ts", mkSeries datetime64 [VDatetime 86400000000000; VNaT]) ].

(** A frame with a two-level index, the second level unnamed. *)
Definition two_level : DataFrame :=
  mkDataFrame
    (MultiIndex (Some "k", mkSeries object_ [VStr "a"; VStr "b"])
                [(None, mkSeries int64 [VInt 1; VInt 2])])
    [ ("v", mkSeries float64 [VFloat 1 0; VFloat 3 (- 1)]) ].

End ExampleFrames.

(** ** Generic facts on the error monad *)

Lemma bind_Ok_inv {A B : Type} (m : Exc A) (k : A -> Exc B) (b : B) :
  bind m k = Ok b -> exists a, m = Ok a /\ k a = Ok b.
Proof.
  destruct m as [e | a]; simpl; intros H.
  - discriminate.
  - exists a. split; [reflexivity | exact H].
Qed.

Lemma mapM_Forall2 {A B : Type} (f : A -> Exc B) (l : list A) (r : list B) :
  mapM f l = Ok r -> Forall2 (fun x y => f x = Ok y) l r.
Proof.
  revert r. induction l as [| x xs IH]; simpl; intros r H.
  - injection H as <-. constructor.
  - apply bind_Ok_inv in H. destruct H as (y & Hy & H).
    apply bind_Ok_inv in H. destruct H as (ys & Hys & H).
    injection H as <-. constructor; [exact Hy | apply IH; exact Hys].
Qed.

Lemma mapM_app_Raise {A B : Type} (f : A -> Exc B) (pre post : list A)
  (x : A) (r : list B) (e : PyExc) :
  mapM f pre = Ok r -> f x = Raise e -> mapM f (pre ++ x :: post) = Raise e.
Proof.
  revert r. induction pre as [| p ps IH]; simpl; intros r Hpre Hx.
  - rewrite Hx. reflexivity.
  - apply bind_Ok_inv in Hpre. destruct Hpre as (y & Hy & H).
    apply bind_Ok_inv in H. destruct H as (ys & Hys & _).
    rewrite Hy. simpl. rewrite (IH ys Hys Hx). reflexivity.
Qed.

(** ** The resolver *)

Lemma iloc0_dropna (s : Series) :
  iloc0 (dropna s) =
  match first_valid s with
  | Some v => Ok v
  | None => Raise IndexError
  end.
Proof.
  unfold iloc0, dropna, first_valid. simpl.
  induction (values s) as [| v vs IH]; simpl.
  - reflexivity.
  - destruct (isnull_val v); simpl; [exact IH | reflexivity].
Qed.

Lemma from_object_sampled (s : Series) (v : PyVal) :
  first_valid s = Some v ->
  get_mapd_type_from_object s = sampled_object_type v.
Proof.
  intros Hv. unfold get_mapd_type_from_object.
  rewrite iloc0_dropna, Hv.
  destruct v; reflexivity.
Qed.

Lemma from_object_all_missing (s : Series) :
  first_valid s = None -> get_mapd_type_from_object s = Raise IndexError.
Proof.
  intros Hv. unfold get_mapd_type_from_object.
  rewrite iloc0_dropna, Hv. reflexivity.
Qed.

Lemma first_valid_all_missing (s : Series) :
  forallb isnull_val (values s) = true -> first_valid s = None.
Proof.
  unfold first_valid. induction (values s) as [| v vs IH]; simpl.
  - reflexivity.
  - intros H. apply andb_true_iff in H. destruct H as [Hv Hvs].
    rewrite Hv. simpl. exact (IH Hvs).
Qed.

Lemma get_mapd_dtype_object (s : Series) :
  is_object_dtype (dtype s) = true ->
  get_mapd_dtype s = get_mapd_type_from_object s.
Proof. unfold get_mapd_dtype. intros ->. reflexivity. Qed.

(** C2: a column whose dtype is not object is resolved by its dtype alone:
    bool gives BOOL; an integer dtype gives TINYINT at width at most 1,
    SMALLINT at width 2, INT at width 4 and BIGINT above 4; a float dtype
    gives FLOAT at width at most 4 and DOUBLE above; a datetime64 dtype
    gives TIMESTAMP; any other dtype raises TypeError. *)
Theorem resolve_known_dtype (s : Series) :
  is_object_dtype (dtype s) = false ->
  let dt := dtype s in
  let r := get_mapd_dtype s in
  r = get_mapd_type_from_known dt /\
  (is_bool_dtype dt = true -> r = Ok "BOOL") /\
  (is_integer_dtype dt = true ->
     (itemsize dt <= 1 -> r = Ok "TINYINT") /\
     (itemsize dt = 2 -> r = Ok "SMALLINT") /\
     (itemsize dt = 4 -> r = Ok "INT") /\
     (itemsize dt > 4 -> r = Ok "BIGINT")) /\
  (is_float_dtype dt = true ->
     (itemsize dt <= 4 -> r = Ok "FLOAT") /\
     (itemsize dt > 4 -> r = Ok "DOUBLE")) /\
  (is_datetime64_any_dtype dt = true -> r = Ok "TIMESTAMP") /\
  (is_bool_dtype dt = false -> is_integer_dtype dt = false ->
   is_float_dtype dt = false -> is_datetime64_any_dtype dt = false ->
   r = Raise TypeError).
Proof.
  intros Hobj dt r. subst dt r. unfold get_mapd_dtype. rewrite Hobj.
  unfold get_mapd_type_from_known, is_bool_dtype, is_integer_dtype,
    is_float_dtype, is_datetime64_any_dtype.
  destruct (dtype s) as [k sz]. simpl.
  split; [reflexivity |].
  destruct k as [| | | | | | | | | boolean | | |]; try destruct boolean; simpl;
    repeat split; intros; try discriminate; try reflexivity;
    repeat match goal with
           | |- context [?a <=? ?b] => destruct (Z.leb_spec a b); try lia
           | |- context [?a =? ?b] => destruct (Z.eqb_spec a b); try lia
           end; reflexivity.
Qed.

Lemma resolve_known_dtype_witness :
  is_object_dtype (dtype (mkSeries (mkDType K_int 2) [VInt 5; VInt 7])) = false /\
  get_mapd_dtype (mkSeries (mkDType K_int 2) [VInt 5; VInt 7]) = Ok "SMALLINT".
Proof.
  split; [reflexivity |].
  destruct (resolve_known_dtype (mkSeries (mkDType K_int 2) [VInt 5; VInt 7])
              eq_refl) as (_ & _ & Hint & _).
  destruct (Hint eq_refl) as (_ & H2 & _).
  apply H2. reflexivity.
Defined.

(** C3, as amended: an object column with a non-missing cell is resolved by
    the class of its first non-missing cell alone: a string gives STR, a
    date (a full datetime included) gives DATE, a time gives TIME, an int (a
    bool included) gives INT, anything else raises TypeError; two object
    columns with the same first non-missing cell resolve alike, whatever
    their later cells. *)
Theorem resolve_object_by_first_valid (s : Series) (v : PyVal) :
  is_object_dtype (dtype s) = true ->
  first_valid s = Some v ->
  get_mapd_dtype s = sampled_object_type v /\
  (forall s' : Series,
      is_object_dtype (dtype s') = true ->
      first_valid s' = Some v ->
      get_mapd_dtype s' = get_mapd_dtype s).
Proof.
  intros Hobj Hv. split.
  - rewrite (get_mapd_dtype_object s Hobj). apply from_object_sampled. exact Hv.
  - intros s' Hobj' Hv'.
    rewrite (get_mapd_dtype_object s Hobj), (get_mapd_dtype_object s' Hobj').
    rewrite (from_object_sampled s Hv), (from_object_sampled s' Hv').
    reflexivity.
Qed.

Lemma resolve_object_by_first_valid_witness :
  get_mapd_dtype (mkSeries object_ [VNone; VStr "a"; VInt 3]) = Ok "STR" /\
  get_mapd_dtype (mkSeries object_ [VStr "a"; VOther; VNaN])
  = get_mapd_dtype (mkSeries object_ [VNone; VStr "a"; VInt 3]).
Proof.
  destruct (resolve_object_by_first_valid
              (mkSeries object_ [VNone; VStr "a"; VInt 3]) (v := VStr "a")
              eq_refl eq_refl) as [H1 H2].
  split.
  - exact H1.
  - apply H2; reflexivity.
Defined.

(** C3, as stated, fails: the first non-missing cell of this object column
    is a full datetime, which is none of string, date-only, time-only or
    plain integer, and the column resolves to DATE instead of raising. *)
Lemma resolve_object_datetime_counterexample :
  is_object_dtype (dtype (mkSeries object_ [VNone; VDatetime 0; VStr "a"])) = true /\
  first_valid (mkSeries object_ [VNone; VDatetime 0; VStr "a"])
  = Some (VDatetime 0) /\
  worded_object_type (VDatetime 0) = Raise TypeError /\
  get_mapd_dtype (mkSeries object_ [VNone; VDatetime 0; VStr "a"]) = Ok "DATE" /\
  get_mapd_dtype (mkSeries object_ [VNone; VDatetime 0; VStr "a"])
  <> worded_object_type (VDatetime 0).
Proof.
  repeat split; try reflexivity. discriminate.
Qed.

(** C10: an object column whose first non-missing cell is a full datetime
    resolves to DATE, never to TIMESTAMP: a datetime passes the date test,
    which comes before the time test, and fails the string test. *)
Theorem resolve_object_datetime_is_DATE (s : Series) (ns : Z) :
  is_object_dtype (dtype s) = true ->
  first_valid s = Some (VDatetime ns) ->
  isinstance (VDatetime ns) C_str = false /\
  isinstance (VDatetime ns) C_date = true /\
  get_mapd_dtype s = Ok "DATE" /\
  get_mapd_dtype s <> Ok "TIMESTAMP".
Proof.
  intros Hobj Hv.
  assert (H : get_mapd_dtype s = Ok "DATE").
  { rewrite (get_mapd_dtype_object s Hobj).
    rewrite (from_object_sampled s Hv). reflexivity. }
  repeat split; try reflexivity; try exact H.
  rewrite H. discriminate.
Qed.

Lemma resolve_object_datetime_is_DATE_witness :
  get_mapd_dtype (mkSeries object_ [VNaT; VDatetime 1500000000000000000]) = Ok "DATE".
Proof.
  apply (resolve_object_datetime_is_DATE
           (mkSeries object_ [VNaT; VDatetime 1500000000000000000])
           (ns := 1500000000000000000) eq_refl eq_refl).
Defined.

(** ** The encoder loop *)

Section LoopFacts.

Variable U : Utils.

Lemma loop_body_split (n : nat) (st : LoopState) (s : Series) :
  loop_body U n st s =
  (cd <- column_data U s ;;
   m <- (match column_mask n st s with
         | Some m => Ok m
         | None => Raise UnboundLocalError
         end) ;;
   Ok (mkLoopState (input_cols st ++ [mkTColumn cd m])
                   (next_all_nulls n st s) (column_mask n st s))).
Proof.
  unfold loop_body, column_data, column_mask, next_all_nulls, normalized,
    time_like, int_family.
  destruct (get_mapd_dtype s) as [e | t]; cbn [bind]; [reflexivity |].
  set (cast := if str_in t ["TIME"; "TIMESTAMP"; "DATE"]
               then thrift_cast U s t else Ok (Some s)).
  destruct (hasnans s).
  - destruct cast as [e | d1]; cbn [bind]; [reflexivity |].
    destruct (as_series d1) as [e | c]; cbn [bind]; [reflexivity |].
    destruct (getitem (mapd_to_na U) t) as [e | na]; cbn [bind];
      [reflexivity |].
    destruct (negb (str_in t ["FLOAT"; "DOUBLE"; "VARCHAR"; "STR"])).
    + destruct (astype_int64 (fillna c na)) as [e | c']; cbn [bind];
        [reflexivity |].
      destruct (getitem (mapd_to_slot U) t) as [e | sl]; cbn [bind];
        [reflexivity |].
      cbn [as_series bind].
      destruct (TColumnData_kwargs sl c'); reflexivity.
    + cbn [bind].
      destruct (getitem (mapd_to_slot U) t) as [e | sl]; cbn [bind];
        [reflexivity |].
      cbn [as_series bind].
      destruct (TColumnData_kwargs sl (fillna c na)); reflexivity.
  - destruct (all_nulls st) as [a |].
    + destruct cast as [e | d1]; cbn [bind]; [reflexivity |].
      destruct (getitem (mapd_to_slot U) t) as [e | sl]; cbn [bind];
        [reflexivity |].
      destruct (as_series d1) as [e | buf]; cbn [bind]; [reflexivity |].
      destruct (TColumnData_kwargs sl buf); cbn [bind]; [reflexivity |].
      destruct (loop_nulls st); reflexivity.
    + destruct cast as [e | d1]; cbn [bind]; [reflexivity |].
      destruct (getitem (mapd_to_slot U) t) as [e | sl]; cbn [bind];
        [reflexivity |].
      destruct (as_series d1) as [e | buf]; cbn [bind]; [reflexivity |].
      destruct (TColumnData_kwargs sl buf); reflexivity.
Qed.

Lemma loop_body_Ok (n : nat) (st st' : LoopState) (s : Series) :
  loop_body U n st s = Ok st' ->
  exists (cd : TColumnData) (m : list bool),
    column_data U s = Ok cd /\
    column_mask n st s = Some m /\
    st' = mkLoopState (input_cols st ++ [mkTColumn cd m])
                      (next_all_nulls n st s) (Some m).
Proof.
  rewrite loop_body_split. intros H.
  apply bind_Ok_inv in H. destruct H as (cd & Hcd & H).
  destruct (column_mask n st s) as [m |] eqn:Hm; simpl in H.
  - injection H as <-. exists cd, m. auto.
  - discriminate.
Qed.

Lemma loop_body_resolver_Raise (n : nat) (st : LoopState) (s : Series)
  (e : PyExc) :
  get_mapd_dtype s = Raise e -> loop_body U n st s = Raise e.
Proof. unfold loop_body. intros ->. reflexivity. Qed.

Lemma for_columns_app (n : nat) (st : LoopState)
  (l1 l2 : list (string * Series)) :
  for_columns U n st (l1 ++ l2) =
  (st1 <- for_columns U n st l1 ;; for_columns U n st1 l2).
Proof.
  revert st. induction l1 as [| [name s] l1 IH]; intros st; simpl.
  - reflexivity.
  - destruct (loop_body U n st s) as [e | st1]; simpl.
    + reflexivity.
    + apply IH.
Qed.

Lemma for_columns_In_Raise (n : nat) (cols : list (string * Series))
  (name : string) (s : Series) (e : PyExc) :
  In (name, s) cols -> get_mapd_dtype s = Raise e ->
  forall st st', for_columns U n st cols <> Ok st'.
Proof.
  induction cols as [| [name' s'] cols IH]; simpl; intros Hin Hs st st' H.
  - contradiction.
  - apply bind_Ok_inv in H. destruct H as (st1 & H1 & H).
    destruct Hin as [Heq | Hin].
    + injection Heq as -> ->.
      rewrite (loop_body_resolver_Raise n st s Hs) in H1. discriminate.
    + exact (IH Hin Hs st1 st' H).
Qed.

(** The results are appended in column order, one per column, and each
    carries the value side of its column. *)
Lemma for_columns_Ok (n : nat) (cols : list (string * Series)) :
  forall st st',
    for_columns U n st cols = Ok st' ->
    exists outs : list TColumn,
      input_cols st' = input_cols st ++ outs /\
      Forall2 (encodes U) cols outs.
Proof.
  induction cols as [| [name s] cols IH]; simpl; intros st st' H.
  - injection H as <-. exists []. rewrite app_nil_r. split; constructor.
  - apply bind_Ok_inv in H. destruct H as (st1 & H1 & H).
    apply loop_body_Ok in H1. destruct H1 as (cd & m & Hcd & _ & ->).
    apply IH in H. destruct H as (outs & Hin & Hall). simpl in Hin.
    exists (mkTColumn cd m :: outs). split.
    + rewrite Hin, <- app_assoc. reflexivity.
    + constructor; [exact Hcd | exact Hall].
Qed.

Lemma build_input_columnar_Ok (df : DataFrame) (pi : bool)
  (out : list TColumn) :
  build_input_columnar U df pi = Ok out ->
  exists df1 : DataFrame,
    frame_of df pi = Ok df1 /\
    Forall2 (encodes U) (columns df1) out.
Proof.
  unfold build_input_columnar, frame_of. intros H.
  apply bind_Ok_inv in H. destruct H as (df1 & Hdf & H).
  apply bind_Ok_inv in H. destruct H as (st & Hst & H).
  injection H as <-.
  apply for_columns_Ok in Hst. destruct Hst as (outs & Hin & Hall).
  simpl in Hin. subst. exists df1. split; [exact Hdf | exact Hall].
Qed.

Lemma Forall2_nth_error {A B : Type} (R : A -> B -> Prop) (l1 : list A)
  (l2 : list B) :
  Forall2 R l1 l2 ->
  forall i a b, nth_error l1 i = Some a -> nth_error l2 i = Some b -> R a b.
Proof.
  induction 1 as [| x y l1 l2 Hxy _ IH]; intros i a b Ha Hb.
  - destruct i; discriminate.
  - destruct i as [| i]; simpl in Ha, Hb.
    + injection Ha as <-. injection Hb as <-. exact Hxy.
    + exact (IH i a b Ha Hb).
Qed.

Lemma encoded_at_column_data (df : DataFrame) (pi : bool) (i : nat)
  (s : Series) (tc : TColumn) :
  encoded_at U df pi i s tc -> column_data U s = Ok (data tc).
Proof.
  intros (df1 & name & out & Hdf & Hs & Hout & Htc).
  apply build_input_columnar_Ok in Hout.
  destruct Hout as (df1' & Hdf' & Hall).
  rewrite Hdf in Hdf'. injection Hdf' as <-.
  exact (Forall2_nth_error Hall i Hs Htc).
Qed.

End LoopFacts.

(** ** The index column and the schema loop *)

Lemma insert_levels_Ok (levels cols r : list (string * Series)) :
  fold_right insert_front (Ok cols) levels = Ok r -> r = levels ++ cols.
Proof.
  revert r. induction levels as [| l ls IH]; simpl; intros r H.
  - injection H as <-. reflexivity.
  - unfold insert_front at 1 in H.
    apply bind_Ok_inv in H. destruct H as (cs & Hcs & H).
    destruct (str_in (fst l) (map fst cs)); [discriminate |].
    injection H as <-. rewrite (IH cs Hcs). reflexivity.
Qed.

Lemma reset_index_Ok (df df1 : DataFrame) :
  reset_index df = Ok df1 ->
  df1 = mkDataFrame (PlainIndex None (RangeIndex (len df)))
                    (index_columns df ++ columns df).
Proof.
  unfold reset_index. intros H.
  apply bind_Ok_inv in H. destruct H as (cols & Hcols & H).
  injection H as <-. rewrite (insert_levels_Ok _ _ Hcols). reflexivity.
Qed.

Lemma fill_missing_names_length (i : nat)
  (levels : list (option string * Series)) :
  List.length (fill_missing_names i levels) = List.length levels.
Proof.
  revert i. induction levels as [| [name cells] rest IH]; simpl; intros i.
  - reflexivity.
  - rewrite IH. reflexivity.
Qed.

Lemma index_columns_length (df : DataFrame) :
  List.length (index_columns df) = List.length (index_levels (index df)).
Proof.
  unfold index_columns, index_levels.
  destruct (index df) as [name cells | first others].
  - reflexivity.
  - apply fill_missing_names_length.
Qed.

Lemma frame_of_columns (df df1 : DataFrame) (pi : bool) :
  frame_of df pi = Ok df1 ->
  forall c, In c (columns df) -> In c (columns df1).
Proof.
  destruct pi; simpl; intros H c Hc.
  - apply reset_index_Ok in H. subst df1. simpl.
    apply in_or_app. right. exact Hc.
  - injection H as <-. exact Hc.
Qed.

Lemma mapM_Forall_Ok {A B : Type} (f : A -> Exc B) (l : list A) :
  Forall (fun x => exists y, f x = Ok y) l -> exists r, mapM f l = Ok r.
Proof.
  induction 1 as [| x xs (y & Hy) _ (r & Hr)]; simpl.
  - exists []. reflexivity.
  - rewrite Hy, Hr. simpl. eexists. reflexivity.
Qed.

Lemma mapM_compose_Forall2 {A B C : Type} (g : A -> Exc B) (h : B -> Exc C) :
  forall (l : list A) (m : list B) (r : list C),
    mapM g l = Ok m -> mapM h m = Ok r ->
    Forall2 (fun x z => exists y, g x = Ok y /\ h y = Ok z) l r.
Proof.
  induction l as [| x xs IH]; simpl; intros m r Hg Hh.
  - injection Hg as <-. simpl in Hh. injection Hh as <-. constructor.
  - apply bind_Ok_inv in Hg. destruct Hg as (y & Hy & Hg).
    apply bind_Ok_inv in Hg. destruct Hg as (ys & Hys & Hg).
    injection Hg as <-. simpl in Hh.
    apply bind_Ok_inv in Hh. destruct Hh as (z & Hz & Hh).
    apply bind_Ok_inv in Hh. destruct Hh as (zs & Hzs & Hh).
    injection Hh as <-.
    constructor; [exists y; auto | exact (IH ys zs Hys Hzs)].
Qed.

Section SchemaFacts.

Variable TD : string -> option Z.

Lemma build_row_desc_Ok (df : DataFrame) (pi : bool) (rd : list TColumnType) :
  build_row_desc TD true (Obj_DataFrame df) pi = Ok rd ->
  exists df1 : DataFrame,
    frame_of df pi = Ok df1 /\ Forall2 (describes TD) (columns df1) rd.
Proof.
  unfold build_row_desc, frame_of. simpl. intros H.
  apply bind_Ok_inv in H. destruct H as (df1 & Hdf & H).
  apply bind_Ok_inv in H. destruct H as (dtypes & Hg & Hh).
  exists df1. split; [exact Hdf |].
  pose proof (mapM_compose_Forall2 _ _ _ Hg Hh) as Hall.
  clear Hg Hh. induction Hall as [| c r cs rs (y & Hy & Hr) _ IH].
  - constructor.
  - constructor; [| exact IH].
    apply bind_Ok_inv in Hy. destruct Hy as (t & Ht & Hy).
    injection Hy as <-. simpl in Hr.
    unfold getattr_TDatumType in Hr.
    destruct (TD t) as [v |] eqn:Hv; simpl in Hr; [| discriminate].
    injection Hr as <-. split; [reflexivity |].
    exists t. simpl. auto.
Qed.

Lemma build_row_desc_resolver_Raise (df df1 : DataFrame) (pi : bool)
  (pre post : list (string * Series)) (name : string) (s : Series)
  (e : PyExc) :
  frame_of df pi = Ok df1 ->
  columns df1 = pre ++ (name, s) :: post ->
  Forall (fun c => exists t, get_mapd_dtype (snd c) = Ok t) pre ->
  get_mapd_dtype s = Raise e ->
  build_row_desc TD true (Obj_DataFrame df) pi = Raise e.
Proof.
  unfold build_row_desc, frame_of. simpl. intros Hdf Hcols Hpre Hs.
  rewrite Hdf. simpl. rewrite Hcols.
  set (g := fun c : string * Series =>
              t <- get_mapd_dtype (snd c) ;; Ok (fst c, t)).
  assert (Hpre' : exists r, mapM g pre = Ok r).
  { apply mapM_Forall_Ok.
    eapply Forall_impl; [| exact Hpre].
    intros c (t & Ht). exists (fst c, t). unfold g. rewrite Ht. reflexivity. }
  destruct Hpre' as (r & Hr).
  assert (Hg : g (name, s) = Raise e).
  { unfold g. simpl. rewrite Hs. reflexivity. }
  rewrite (mapM_app_Raise g pre post (name, s) Hr Hg). reflexivity.
Qed.

Lemma build_row_desc_In_Raise (df : DataFrame) (pi : bool) (name : string)
  (s : Series) (e : PyExc) :
  In (name, s) (columns df) -> get_mapd_dtype s = Raise e ->
  forall rd, build_row_desc TD true (Obj_DataFrame df) pi <> Ok rd.
Proof.
  intros Hin Hs rd H.
  apply build_row_desc_Ok in H. destruct H as (df1 & Hdf & Hall).
  pose proof (frame_of_columns df pi Hdf _ Hin) as Hin1.
  clear Hdf Hin. induction Hall as [| c r cs rs Hc _ IH].
  - contradiction.
  - destruct Hin1 as [-> | Hin1].
    + destruct Hc as (_ & t & Ht & _). simpl in Ht. congruence.
    + exact (IH Hin1).
Qed.

End SchemaFacts.

Section EncoderErrors.

Variable U : Utils.

Lemma build_input_columnar_resolver_Raise (df df1 : DataFrame) (pi : bool)
  (pre post : list (string * Series)) (name : string) (s : Series)
  (e : PyExc) :
  frame_of df pi = Ok df1 ->
  columns df1 = pre ++ (name, s) :: post ->
  (exists st, for_columns U (len df1) loop_init pre = Ok st) ->
  get_mapd_dtype s = Raise e ->
  build_input_columnar U df pi = Raise e.
Proof.
  unfold build_input_columnar, frame_of. intros Hdf Hcols (st & Hst) Hs.
  rewrite Hdf. simpl. rewrite Hcols, for_columns_app, Hst. simpl.
  rewrite (loop_body_resolver_Raise U (len df1) st s Hs). reflexivity.
Qed.

Lemma build_input_columnar_In_Raise (df : DataFrame) (pi : bool)
  (name : string) (s : Series) (e : PyExc) :
  In (name, s) (columns df) -> get_mapd_dtype s = Raise e ->
  forall out, build_input_columnar U df pi <> Ok out.
Proof.
  intros Hin Hs out H. unfold build_input_columnar in H.
  apply bind_Ok_inv in H. destruct H as (df1 & Hdf & H).
  apply bind_Ok_inv in H. destruct H as (st & Hst & _).
  pose proof (frame_of_columns df pi Hdf _ Hin) as Hin1.
  exact (@for_columns_In_Raise U (len df1) (columns df1) name s e Hin1 Hs
           loop_init st Hst).
Qed.

End EncoderErrors.

(** C4: an object column in which every cell is missing does not resolve:
    the resolver raises IndexError. The encoder and the schema describer
    surface that same IndexError when they reach the column (the columns
    before it having gone through), and never return a result for a table
    that holds such a column. *)
Theorem all_missing_object_column_IndexError (U : Utils)
  (TD : string -> option Z) (s : Series) :
  is_object_dtype (dtype s) = true ->
  forallb isnull_val (values s) = true ->
  get_mapd_dtype s = Raise IndexError /\
  (forall df pi df1 pre name post,
      frame_of df pi = Ok df1 ->
      columns df1 = pre ++ (name, s) :: post ->
      (exists st, for_columns U (len df1) loop_init pre = Ok st) ->
      build_input_columnar U df pi = Raise IndexError) /\
  (forall df pi df1 pre name post,
      frame_of df pi = Ok df1 ->
      columns df1 = pre ++ (name, s) :: post ->
      Forall (fun c => exists t, get_mapd_dtype (snd c) = Ok t) pre ->
      build_row_desc TD true (Obj_DataFrame df) pi = Raise IndexError) /\
  (forall df pi name,
      In (name, s) (columns df) ->
      (forall out, build_input_columnar U df pi <> Ok out) /\
      (forall rd, build_row_desc TD true (Obj_DataFrame df) pi <> Ok rd)).
Proof.
  intros Hobj Hall.
  assert (Hs : get_mapd_dtype s = Raise IndexError).
  { rewrite (get_mapd_dtype_object s Hobj).
    apply from_object_all_missing, first_valid_all_missing, Hall. }
  split; [exact Hs |]. split; [| split].
  - intros df pi df1 pre name post Hdf Hcols Hpre.
    eapply build_input_columnar_resolver_Raise; eassumption.
  - intros df pi df1 pre name post Hdf Hcols Hpre.
    eapply build_row_desc_resolver_Raise; eassumption.
  - intros df pi name Hin. split.
    + eapply build_input_columnar_In_Raise; eassumption.
    + eapply build_row_desc_In_Raise; eassumption.
Qed.

Lemma all_missing_object_column_IndexError_witness :
  get_mapd_dtype (mkSeries object_ [VNone; VNaN]) = Raise IndexError /\
  build_input_columnar ExampleUtils.utils ExampleUtils.frame_missing false
  = Raise IndexError /\
  build_row_desc ExampleUtils.datum_type true
    (Obj_DataFrame ExampleUtils.frame_missing) true = Raise IndexError.
Proof.
  destruct (all_missing_object_column_IndexError ExampleUtils.utils
              ExampleUtils.datum_type (mkSeries object_ [VNone; VNaN])
              eq_refl eq_refl) as (H1 & H2 & H3 & _).
  split; [exact H1 |]. split.
  - apply (H2 ExampleUtils.frame_missing false ExampleUtils.frame_missing
              [("a", mkSeries int64 [VInt 1; VInt 2])] "m"
              [("c", mkSeries float64 [VFloat 1 0; VFloat 1 1])]).
    + reflexivity.
    + reflexivity.
    + eexists. vm_compute. reflexivity.
  - apply (H3 ExampleUtils.frame_missing true
              (mkDataFrame (PlainIndex None (RangeIndex 2))
                 (("index", RangeIndex 2)
                  :: columns ExampleUtils.frame_missing))
              [("index", RangeIndex 2);
               ("a", mkSeries int64 [VInt 1; VInt 2])] "m"
              [("c", mkSeries float64 [VFloat 1 0; VFloat 1 1])]).
    + reflexivity.
    + reflexivity.
    + repeat constructor; eexists; vm_compute; reflexivity.
Defined.

(** ** The value side of a column *)

Lemma str_in_In (k : string) (l : list string) :
  str_in k l = true <-> In k l.
Proof.
  unfold str_in. rewrite existsb_exists. split.
  - intros (x & Hx & Heq). apply String.eqb_eq in Heq. subst. exact Hx.
  - intros H. exists k. split; [exact H | apply String.eqb_refl].
Qed.

Lemma resolver_range (s : Series) (t : string) :
  get_mapd_dtype s = Ok t -> In t wire_types.
Proof.
  unfold get_mapd_dtype, get_mapd_type_from_known, get_mapd_type_from_object,
    wire_types.
  destruct (is_object_dtype (dtype s)).
  - destruct (iloc0 (dropna s)) as [e | v].
    + destruct e; discriminate.
    + destruct (isinstance v C_str); [intros H; injection H as <-; simpl; tauto |].
      destruct (isinstance v C_date); [intros H; injection H as <-; simpl; tauto |].
      destruct (isinstance v C_time); [intros H; injection H as <-; simpl; tauto |].
      destruct (isinstance v C_int); [intros H; injection H as <-; simpl; tauto |].
      discriminate.
  - destruct (is_bool_dtype (dtype s)); [intros H; injection H as <-; simpl; tauto |].
    destruct (is_integer_dtype (dtype s)).
    { destruct (itemsize (dtype s) <=? 1); [intros H; injection H as <-; simpl; tauto |].
      destruct (itemsize (dtype s) =? 2); [intros H; injection H as <-; simpl; tauto |].
      destruct (itemsize (dtype s) =? 4); intros H; injection H as <-; simpl; tauto. }
    destruct (is_float_dtype (dtype s)).
    { destruct (itemsize (dtype s) <=? 4); intros H; injection H as <-; simpl; tauto. }
    destruct (is_datetime64_any_dtype (dtype s));
      [intros H; injection H as <-; simpl; tauto | discriminate].
Qed.

Lemma time_like_int_family (t : string) :
  time_like t = true -> int_family t = true.
Proof.
  unfold time_like. rewrite str_in_In. simpl.
  intros [<- | [<- | [<- | []]]]; reflexivity.
Qed.


Lemma TColumnData_kwargs_buffer (sl : string) (buf : Series)
  (cd : TColumnData) :
  TColumnData_kwargs sl buf = Ok cd -> buffer_of cd = Some buf.
Proof.
  unfold TColumnData_kwargs.
  destruct (String.eqb sl "int_col"); [intros H; injection H as <-; reflexivity |].
  destruct (String.eqb sl "real_col"); [intros H; injection H as <-; reflexivity |].
  destruct (String.eqb sl "str_col"); [intros H; injection H as <-; reflexivity |].
  discriminate.
Qed.

Lemma to_int64_Ok (a b : PyVal) :
  to_int64 a = Ok b ->
  exists z, py_int a = Ok z /\ b = VInt z /\ in_int64 z = true.
Proof.
  unfold to_int64. intros H.
  apply bind_Ok_inv in H. destruct H as (z & Hz & H).
  destruct (in_int64 z) eqn:Hin; [| discriminate].
  injection H as <-. exists z. auto.
Qed.


Lemma astype_int64_Ok (x buf : Series) :
  astype_int64 x = Ok buf ->
  dtype buf = int64 /\
  Forall2 (fun a b => to_int64 a = Ok b) (values x) (values buf).
Proof.
  unfold astype_int64. intros H.
  apply bind_Ok_inv in H. destruct H as (vs & Hvs & H).
  injection H as <-. simpl. split; [reflexivity |].
  apply mapM_Forall2. exact Hvs.
Qed.

Lemma Forall2_nth_error_l {A B : Type} (R : A -> B -> Prop) (l1 : list A)
  (l2 : list B) :
  Forall2 R l1 l2 ->
  forall i a, nth_error l1 i = Some a ->
              exists b, nth_error l2 i = Some b /\ R a b.
Proof.
  induction 1 as [| x y l1 l2 Hxy _ IH]; intros i a Ha.
  - destruct i; discriminate.
  - destruct i as [| i]; simpl in Ha.
    + injection Ha as <-. exists y. auto.
    + exact (IH i a Ha).
Qed.

Section ColumnData.

Variable U : Utils.

Lemma column_data_no_nulls (s : Series) (t : string) (cd : TColumnData) :
  get_mapd_dtype s = Ok t -> hasnans s = false ->
  column_data U s = Ok cd ->
  exists c, normalized U s t = Ok (Some c) /\ buffer_of cd = Some c.
Proof.
  unfold column_data. intros Ht Hn H. rewrite Ht, Hn in H. cbn [bind] in H.
  apply bind_Ok_inv in H. destruct H as (d1 & Hd1 & H). cbn [bind] in H.
  apply bind_Ok_inv in H. destruct H as (sl & _ & H).
  apply bind_Ok_inv in H. destruct H as (buf & Hbuf & H).
  destruct d1 as [c |]; simpl in Hbuf; [| discriminate].
  injection Hbuf as <-. exists c. split; [exact Hd1 |].
  exact (TColumnData_kwargs_buffer _ _ H).
Qed.

Lemma column_data_nulls_int (s : Series) (t : string) (cd : TColumnData) :
  get_mapd_dtype s = Ok t -> hasnans s = true -> int_family t = true ->
  column_data U s = Ok cd ->
  exists c na buf,
    normalized U s t = Ok (Some c) /\
    mapd_to_na U t = Some na /\
    astype_int64 (fillna c na) = Ok buf /\
    buffer_of cd = Some buf.
Proof.
  unfold column_data. intros Ht Hn Hfam H.
  rewrite Ht in H. cbn [bind] in H. rewrite Hn, Hfam in H.
  apply bind_Ok_inv in H. destruct H as (d1 & Hd1 & H).
  apply bind_Ok_inv in H. destruct H as (d2 & Hd2 & H).
  apply bind_Ok_inv in Hd2. destruct Hd2 as (c & Hc & Hd2).
  apply bind_Ok_inv in Hd2. destruct Hd2 as (na & Hna & Hd2).
  apply bind_Ok_inv in Hd2. destruct Hd2 as (c' & Hc' & Hd2).
  injection Hd2 as <-.
  apply bind_Ok_inv in H. destruct H as (sl & _ & H).
  apply bind_Ok_inv in H. destruct H as (buf & Hbuf & H).
  simpl in Hbuf. injection Hbuf as <-.
  destruct d1 as [c0 |]; simpl in Hc; [| discriminate].
  injection Hc as <-.
  unfold getitem in Hna. destruct (mapd_to_na U t) as [v |] eqn:Hv;
    [| discriminate].
  injection Hna as <-.
  exists c0, v, c'. repeat split; try assumption.
  exact (TColumnData_kwargs_buffer _ _ H).
Qed.

End ColumnData.



Lemma thrift_cast_cast_by_utils (U : Utils) (s c : Series) (t : string) :
  time_like t = true ->
  (thrift_cast U s t = Ok (Some c) <-> cast_by_utils U s t c).
Proof.
  unfold time_like. rewrite str_in_In. simpl.
  unfold cast_by_utils, thrift_cast.
  intros [<- | [<- | [<- | []]]]; simpl; split.
  - intros H. right. left. split; [reflexivity |].
    apply bind_Ok_inv in H. destruct H as (vs & Hvs & H).
    injection H as <-. exists vs. auto.
  - intros [[H _] | [[_ (vs & Hvs & ->)] | [H _]]]; try discriminate.
    rewrite Hvs. reflexivity.
  - intros H. left. split; [reflexivity |].
    destruct (datetime_to_seconds U s); simpl in H; [discriminate |].
    injection H as <-. reflexivity.
  - intros [[_ H] | [[H _] | [H _]]]; try discriminate.
    rewrite H. reflexivity.
  - intros H. right. right. split; [reflexivity |].
    destruct (date_to_seconds U s); simpl in H; [discriminate |].
    injection H as <-. reflexivity.
  - intros [[H _] | [[H _] | [_ H]]]; try discriminate.
    rewrite H. reflexivity.
Qed.

Lemma astype_int64_filled (c : Series) (z0 : Z) :
  in_int64 z0 = true ->
  Forall missing_or_int64 (values c) ->
  exists buf,
    astype_int64 (fillna c (VInt z0)) = Ok buf /\
    dtype buf = int64 /\
    Forall2 (fun x y => if isnull_val x then y = VInt z0
                        else exists z, py_int x = Ok z /\ y = VInt z)
            (values c) (values buf).
Proof.
  intros Hz0 Hall. unfold astype_int64, fillna. simpl.
  assert (H : exists vs,
             mapM to_int64
               (map (fun x => if isnull_val x then VInt z0 else x) (values c))
             = Ok vs /\
             Forall2 (fun x y => if isnull_val x then y = VInt z0
                                 else exists z, py_int x = Ok z /\ y = VInt z)
                     (values c) vs).
  { induction Hall as [| x xs Hx _ (vs & Hvs & Hrel)]; simpl.
    - exists []. split; [reflexivity | constructor].
    - destruct (isnull_val x) eqn:Hnull.
      + unfold to_int64 at 1. simpl. rewrite Hz0, Hvs. simpl.
        eexists. split; [reflexivity |].
        constructor; [rewrite Hnull; reflexivity | exact Hrel].
      + destruct Hx as [Hx | (z & Hz & Hin)]; [congruence |].
        unfold to_int64 at 1. rewrite Hz. simpl. rewrite Hin, Hvs. simpl.
        eexists. split; [reflexivity |].
        constructor; [rewrite Hnull; exists z; auto | exact Hrel]. }
  destruct H as (vs & Hvs & Hrel). rewrite Hvs. simpl.
  eexists. split; [reflexivity |]. split; [reflexivity | exact Hrel].
Qed.

(** C6, as amended: for a column with a missing cell that resolves to DATE,
    TIME or TIMESTAMP, the buffer is built as
    astype(fillna(conversion(column))): the conversion of [_utils] for the
    wire type runs first, on the source column, so that the sentinel never
    goes through it; the sentinel is then put in the cells that are still
    missing after the conversion, which are the source's missing cells when
    the conversion keeps the missing markers in place, and every other cell
    holds the converted value, all stored as int64. When the conversion
    returns missing markers and int64 values only and the sentinel is an
    int64, the loop body does return this buffer, with the column's own
    mask. *)
Theorem time_like_cast_precedes_sentinel (U : Utils) (s : Series)
  (t : string) :
  get_mapd_dtype s = Ok t ->
  time_like t = true ->
  hasnans s = true ->
  (forall df pi i tc,
      encoded_at U df pi i s tc ->
      exists c na buf,
        cast_by_utils U s t c /\
        mapd_to_na U t = Some na /\
        astype_int64 (fillna c na) = Ok buf /\
        buffer_of (data tc) = Some buf /\
        dtype buf = int64 /\
        (forall j x,
            nth_error (values c) j = Some x ->
            exists z,
              nth_error (values buf) j = Some (VInt z) /\
              py_int (if isnull_val x then na else x) = Ok z) /\
        (isnull c = isnull s ->
         forall j,
           nth_error (isnull s) j = Some true ->
           exists z,
             nth_error (values buf) j = Some (VInt z) /\ py_int na = Ok z)) /\
  (forall c z0 sl n st,
      cast_by_utils U s t c ->
      mapd_to_na U t = Some (VInt z0) ->
      in_int64 z0 = true ->
      Forall missing_or_int64 (values c) ->
      mapd_to_slot U t = Some sl ->
      In sl ["int_col"; "real_col"; "str_col"] ->
      exists cd buf,
        loop_body U n st s
        = Ok (mkLoopState (input_cols st ++ [mkTColumn cd (isnull s)])
                          (all_nulls st) (Some (isnull s))) /\
        buffer_of cd = Some buf /\
        dtype buf = int64 /\
        Forall2 (fun x y => if isnull_val x then y = VInt z0
                            else exists z, py_int x = Ok z /\ y = VInt z)
                (values c) (values buf)).
Proof.
  intros Ht Htl Hn.
  pose proof (time_like_int_family t Htl) as Hfam. split.
  - intros df pi i tc Henc.
    pose proof (encoded_at_column_data Henc) as Hcd.
    destruct (column_data_nulls_int U s Ht Hn Hfam Hcd)
      as (c & na & buf & Hc & Hna & Hbuf & Hslot).
    unfold normalized in Hc. rewrite Htl in Hc.
    apply (proj1 (@thrift_cast_cast_by_utils U s c t Htl)) in Hc.
    exists c, na, buf.
    destruct (astype_int64_Ok _ Hbuf) as [Hdt Hall]. simpl in Hall.
    assert (Hpos : forall j x,
               nth_error (values c) j = Some x ->
               exists z,
                 nth_error (values buf) j = Some (VInt z) /\
                 py_int (if isnull_val x then na else x) = Ok z).
    { intros j x Hx.
      assert (Hf : nth_error
                     (map (fun x => if isnull_val x then na else x) (values c))
                     j
                   = Some (if isnull_val x then na else x)).
      { rewrite nth_error_map, Hx. reflexivity. }
      destruct (Forall2_nth_error_l Hall j Hf) as (b & Hb & Hab).
      apply to_int64_Ok in Hab. destruct Hab as (z & Hz & -> & _).
      exists z. auto. }
    repeat split; try assumption.
    intros Hsame j Hj. rewrite <- Hsame in Hj. unfold isnull in Hj.
    rewrite nth_error_map in Hj.
    destruct (nth_error (values c) j) as [x |] eqn:Hx; [| discriminate].
    simpl in Hj. injection Hj as Hj.
    destruct (Hpos j x Hx) as (z & Hz & Hpy). rewrite Hj in Hpy.
    exists z. auto.
  - intros c z0 sl n st Hc Hna Hz0 Hcells Hsl Hfield.
    apply (proj2 (@thrift_cast_cast_by_utils U s c t Htl)) in Hc.
    destruct (@astype_int64_filled c z0 Hz0 Hcells)
      as (buf & Hbuf & Hdt & Hrel).
    assert (Hkw : exists cd, TColumnData_kwargs sl buf = Ok cd).
    { simpl in Hfield.
      destruct Hfield as [<- | [<- | [<- | []]]]; eexists; reflexivity. }
    destruct Hkw as (cd & Hkw).
    exists cd, buf. repeat split; try assumption.
    + rewrite loop_body_split.
      unfold column_data, normalized, getitem.
      rewrite Ht. cbn [bind]. rewrite Htl, Hc. cbn [bind].
      rewrite Hn, Hfam. cbn [as_series bind]. rewrite Hna. cbn [bind].
      rewrite Hbuf. cbn [bind]. rewrite Hsl. cbn [as_series bind].
      rewrite Hkw. cbn [bind].
      unfold column_mask, next_all_nulls. rewrite Hn. reflexivity.
    + exact (TColumnData_kwargs_buffer _ _ Hkw).
Qed.

Lemma time_like_cast_precedes_sentinel_witness :
  (exists buf,
      buffer_of (data ExampleUtils.dates_encoded) = Some buf /\
      nth_error (values buf) 1 = Some (VInt (- 2 ^ 63))) /\
  (exists cd buf,
      loop_body ExampleUtils.utils 3 loop_init
        (mkSeries object_ [VDate 1; VNone; VDate 2])
      = Ok (mkLoopState [mkTColumn cd [false; true; false]]
                        None (Some [false; true; false])) /\
      buffer_of cd = Some buf /\
      dtype buf = int64).
Proof.
  destruct (@time_like_cast_precedes_sentinel ExampleUtils.utils
              (mkSeries object_ [VDate 1; VNone; VDate 2]) "DATE"
              eq_refl eq_refl eq_refl) as (HA & HB).
  split.
  - destruct (HA ExampleUtils.frame_dates false 0%nat
                ExampleUtils.dates_encoded)
      as (c & na & buf & Hc & Hna & _ & Hslot & _ & _ & Hsrc).
    + exists ExampleUtils.frame_dates, "d".
      eexists. repeat split; vm_compute; reflexivity.
    + destruct Hc as [[Hc _] | [[Hc _] | [_ Hc]]]; try discriminate.
      vm_compute in Hc. injection Hc as <-.
      vm_compute in Hna. injection Hna as <-.
      exists buf. split; [exact Hslot |].
      destruct (Hsrc eq_refl 1%nat eq_refl) as (z & Hz & Hpy).
      simpl in Hpy. injection Hpy as <-. exact Hz.
  - destruct (HB (mkSeries float64 [VFloat 86400 0; VNaN; VFloat 172800 0])
                (- 2 ^ 63) "int_col" 3%nat loop_init)
      as (cd & buf & Hloop & Hslot & Hdt & _).
    + right. right. split; reflexivity.
    + reflexivity.
    + reflexivity.
    + unfold missing_or_int64.
      constructor; [right; exists 86400; split; reflexivity |].
      constructor; [left; reflexivity |].
      constructor; [right; exists 172800; split; reflexivity | constructor].
    + reflexivity.
    + simpl. auto.
    + exists cd, buf. repeat split; assumption.
Defined.

(** C6, as stated, fails: with a TIMESTAMP conversion that reads every
    stored cell, NaT included, as an integer, no cell is left missing for
    the sentinel: the missing position of this column holds the converted
    NaT, not the sentinel. *)
Lemma sentinel_not_at_missing_position_counterexample :
  get_mapd_dtype (mkSeries datetime64 [VDatetime 86400000000000; VNaT])
  = Ok "TIMESTAMP" /\
  isnull (mkSeries datetime64 [VDatetime 86400000000000; VNaT])
  = [false; true] /\
  mapd_to_na ExampleFrames.utils_stored "TIMESTAMP" = Some (VInt (- 2 ^ 63)) /\
  build_input_columnar ExampleFrames.utils_stored ExampleFrames.stamps false
  = Ok [mkTColumn
          (mkTColumnData
             (Some (mkSeries int64 [VInt 86400; VInt (-9223372037)]))
             None None)
          [false; true]] /\
  VInt (-9223372037) <> VInt (- 2 ^ 63).
Proof.
  repeat split; try (vm_compute; reflexivity). discriminate.
Qed.

(** C5, as amended: for a wire type other than DATE, TIME and TIMESTAMP,
    [thrift_cast] returns Python's None, not the column. The encoder calls
    it for those three types only, so that a column of any other type goes
    on unchanged; without missing cells it is the buffer placed in the
    slot. *)
Theorem thrift_cast_other_type_returns_None (U : Utils) (s : Series)
  (t : string) :
  time_like t = false ->
  thrift_cast U s t = Ok None /\
  normalized U s t = Ok (Some s) /\
  (forall df pi i tc,
      encoded_at U df pi i s tc ->
      get_mapd_dtype s = Ok t ->
      hasnans s = false ->
      buffer_of (data tc) = Some s).
Proof.
  intros Htl. split; [| split].
  - unfold time_like, str_in in Htl. simpl in Htl.
    apply orb_false_iff in Htl. destruct Htl as [Htime Htl].
    apply orb_false_iff in Htl. destruct Htl as [Hstamp Htl].
    apply orb_false_iff in Htl. destruct Htl as [Hdate _].
    unfold thrift_cast. rewrite Hstamp, Htime, Hdate. reflexivity.
  - unfold normalized. rewrite Htl. reflexivity.
  - intros df pi i tc Henc Ht Hn.
    pose proof (encoded_at_column_data Henc) as Hcd.
    destruct (column_data_no_nulls U s Ht Hn Hcd) as (c & Hc & Hbuf).
    unfold normalized in Hc. rewrite Htl in Hc. injection Hc as <-.
    exact Hbuf.
Qed.

Lemma thrift_cast_other_type_returns_None_witness :
  thrift_cast ExampleUtils.utils (mkSeries int64 [VInt 1; VInt 2]) "BIGINT"
  = Ok None /\
  buffer_of (data ExampleUtils.a_encoded)
  = Some (mkSeries int64 [VInt 1; VInt 2]).
Proof.
  destruct (@thrift_cast_other_type_returns_None ExampleUtils.utils
              (mkSeries int64 [VInt 1; VInt 2]) "BIGINT" eq_refl)
    as (Hcast & _ & Henc).
  split; [exact Hcast |].
  apply (Henc ExampleUtils.frame3 false 0%nat ExampleUtils.a_encoded).
  - exists ExampleUtils.frame3, "a".
    eexists. repeat split; vm_compute; reflexivity.
  - reflexivity.
  - reflexivity.
Defined.

(** C5, as stated, fails: on an INT column [thrift_cast] does not return the
    column. *)
Lemma thrift_cast_not_identity_counterexample :
  time_like "INT" = false /\
  thrift_cast ExampleUtils.utils (mkSeries int64 [VInt 1; VInt 2]) "INT"
  = Ok None /\
  thrift_cast ExampleUtils.utils (mkSeries int64 [VInt 1; VInt 2]) "INT"
  <> Ok (Some (mkSeries int64 [VInt 1; VInt 2])).
Proof.
  repeat split; try reflexivity. discriminate.
Qed.

(** C8, as amended: for an argument that is not a pandas DataFrame,
    [build_row_desc] raises TypeError (ImportError only when pandas cannot
    be imported, whatever the argument). The error is raised before any
    column is looked at, and there is no partial result. *)
Theorem build_row_desc_rejects_non_dataframe (TD : string -> option Z)
  (obj : PyObject) (pi : bool) :
  (forall df, obj <> Obj_DataFrame df) ->
  build_row_desc TD true obj pi = Raise TypeError /\
  build_row_desc TD false obj pi = Raise ImportError /\
  (forall importable rd, build_row_desc TD importable obj pi <> Ok rd).
Proof.
  intros Hobj.
  assert (H : build_row_desc TD true obj pi = Raise TypeError).
  { unfold build_row_desc. simpl.
    destruct obj as [df | | | s |]; try reflexivity.
    exfalso. exact (Hobj df eq_refl). }
  split; [exact H |]. split; [reflexivity |].
  intros [|] rd.
  - rewrite H. discriminate.
  - discriminate.
Qed.

Lemma build_row_desc_rejects_non_dataframe_witness :
  build_row_desc ExampleUtils.datum_type true Obj_RecordBatch true
  = Raise TypeError.
Proof.
  apply (@build_row_desc_rejects_non_dataframe ExampleUtils.datum_type
           Obj_RecordBatch true).
  intros df. discriminate.
Defined.

(** C8, as stated, fails: an Arrow table is not a DataFrame, and the error
    it gets is a TypeError, not an ImportError. *)
Lemma build_row_desc_TypeError_counterexample :
  build_row_desc ExampleUtils.datum_type true Obj_Table false
  = Raise TypeError /\
  build_row_desc ExampleUtils.datum_type true Obj_Table false
  <> Raise ImportError.
Proof.
  split; [reflexivity | discriminate].
Qed.

(** ** Column order and the index column *)

Lemma describes_names (TD : string -> option Z)
  (cols : list (string * Series)) (rd : list TColumnType) :
  Forall2 (describes TD) cols rd -> map col_name rd = map fst cols.
Proof.
  induction 1 as [| c r cs rs (Hname & _) _ IH]; simpl.
  - reflexivity.
  - rewrite Hname, IH. reflexivity.
Qed.

(** C9, as amended: with [preserve_index] set, the encoder and the schema
    describer return one entry per level of the index, in level order,
    before the entries of the table's columns, which follow in their order:
    exactly one more entry than the table has columns for a plain index, one
    per level for a MultiIndex. Without [preserve_index] they return exactly
    one entry per column, in column order. *)
Theorem preserve_index_prepends_index_levels (U : Utils)
  (TD : string -> option Z) (df : DataFrame) :
  (forall out,
      build_input_columnar U df true = Ok out ->
      exists idx rest,
        reset_index df
        = Ok (mkDataFrame (PlainIndex None (RangeIndex (len df)))
                          (index_columns df ++ columns df)) /\
        out = idx ++ rest /\
        Forall2 (encodes U) (index_columns df) idx /\
        Forall2 (encodes U) (columns df) rest /\
        List.length idx = List.length (index_levels (index df))) /\
  (forall out,
      build_input_columnar U df false = Ok out ->
      Forall2 (encodes U) (columns df) out /\
      List.length out = List.length (columns df)) /\
  (forall rd,
      build_row_desc TD true (Obj_DataFrame df) true = Ok rd ->
      exists idx rest,
        rd = idx ++ rest /\
        Forall2 (describes TD) (index_columns df) idx /\
        Forall2 (describes TD) (columns df) rest /\
        map col_name rd
        = map fst (index_columns df) ++ map fst (columns df) /\
        List.length idx = List.length (index_levels (index df))) /\
  (forall rd,
      build_row_desc TD true (Obj_DataFrame df) false = Ok rd ->
      Forall2 (describes TD) (columns df) rd /\
      map col_name rd = map fst (columns df) /\
      List.length rd = List.length (columns df)) /\
  (forall name cells,
      index df = PlainIndex name cells ->
      List.length (index_levels (index df)) = 1%nat /\
      exists label, index_columns df = [(label, cells)]).
Proof.
  split; [| split; [| split; [| split]]].
  - intros out H. apply build_input_columnar_Ok in H.
    destruct H as (df1 & Hdf & Hall). simpl in Hdf.
    pose proof (reset_index_Ok df Hdf) as Heq. subst df1. simpl in Hall.
    apply Forall2_app_inv_l in Hall.
    destruct Hall as (idx & rest & Hidx & Hrest & ->).
    exists idx, rest. repeat split; try assumption.
    rewrite <- (Forall2_length Hidx). apply index_columns_length.
  - intros out H. apply build_input_columnar_Ok in H.
    destruct H as (df1 & Hdf & Hall). simpl in Hdf. injection Hdf as <-.
    split; [exact Hall | symmetry; exact (Forall2_length Hall)].
  - intros rd H. apply build_row_desc_Ok in H.
    destruct H as (df1 & Hdf & Hall). simpl in Hdf.
    pose proof (reset_index_Ok df Hdf) as Heq. subst df1. simpl in Hall.
    pose proof (describes_names Hall) as Hnames. rewrite map_app in Hnames.
    apply Forall2_app_inv_l in Hall.
    destruct Hall as (idx & rest & Hidx & Hrest & ->).
    exists idx, rest. repeat split; try assumption.
    rewrite <- (Forall2_length Hidx). apply index_columns_length.
  - intros rd H. apply build_row_desc_Ok in H.
    destruct H as (df1 & Hdf & Hall). simpl in Hdf. injection Hdf as <-.
    split; [exact Hall |]. split.
    + exact (describes_names Hall).
    + symmetry. exact (Forall2_length Hall).
  - intros name cells Hix. unfold index_columns. rewrite Hix. simpl.
    split; [reflexivity |]. eexists. reflexivity.
Qed.

Lemma preserve_index_prepends_index_levels_witness :
  (exists out,
      build_input_columnar ExampleUtils.utils ExampleUtils.frame3 true = Ok out /\
      List.length out = 4%nat) /\
  (exists rd,
      build_row_desc ExampleUtils.datum_type true
        (Obj_DataFrame ExampleUtils.frame3) true = Ok rd /\
      map col_name rd = ["index"; "a"; "b"; "c"]).
Proof.
  split.
  - destruct (build_input_columnar ExampleUtils.utils ExampleUtils.frame3 true)
      as [e | out] eqn:Hout.
    + vm_compute in Hout. discriminate.
    + exists out. split; [reflexivity |].
      destruct (preserve_index_prepends_index_levels ExampleUtils.utils
                  ExampleUtils.datum_type ExampleUtils.frame3) as (H1 & _).
      destruct (H1 out Hout) as (idx & rest & _ & -> & _ & Hrest & Hlen).
      rewrite length_app, Hlen, <- (Forall2_length Hrest). reflexivity.
  - destruct (build_row_desc ExampleUtils.datum_type true
                (Obj_DataFrame ExampleUtils.frame3) true)
      as [e | rd] eqn:Hrd.
    + vm_compute in Hrd. discriminate.
    + exists rd. split; [reflexivity |].
      destruct (preserve_index_prepends_index_levels ExampleUtils.utils
                  ExampleUtils.datum_type ExampleUtils.frame3)
        as (_ & _ & H3 & _).
      destruct (H3 rd Hrd) as (idx & rest & _ & _ & _ & Hnames & _).
      rewrite Hnames. reflexivity.
Defined.

(** C9, as stated, fails: on a frame with a two-level index and one column,
    [preserve_index] gives two extra entries, one per level, not one. *)
Lemma preserve_index_two_levels_counterexample :
  List.length (columns ExampleFrames.two_level) = 1%nat /\
  (exists rd,
      build_row_desc ExampleUtils.datum_type true
        (Obj_DataFrame ExampleFrames.two_level) true = Ok rd /\
      map col_name rd = ["k"; "level_1"; "v"] /\
      List.length rd <> 2%nat) /\
  (exists out,
      build_input_columnar ExampleUtils.utils ExampleFrames.two_level true
      = Ok out /\
      List.length out = 3%nat /\
      List.length out <> 2%nat).
Proof.
  split; [reflexivity |]. split.
  - eexists. split; [vm_compute; reflexivity |].
    split; [reflexivity | discriminate].
  - eexists. split; [vm_compute; reflexivity |].
    split; [reflexivity | discriminate].
Qed.

(** ** The null mask *)

Section MaskFacts.

Variable U : Utils.

(** A column with a missing cell gets its own mask. *)
Lemma loop_body_mask_with_nulls (n : nat) (st st' : LoopState) (s : Series) :
  loop_body U n st s = Ok st' ->
  hasnans s = true ->
  loop_nulls st' = Some (isnull s).
Proof.
  intros H Hn. apply loop_body_Ok in H.
  destruct H as (cd & m & _ & Hm & ->). simpl.
  unfold column_mask in Hm. rewrite Hn in Hm. symmetry. exact Hm.
Qed.

(** Once the shared all-false mask exists, a column without missing cells
    is given whatever mask the previous iteration left in [nulls]. *)
Lemma loop_body_mask_carried_over (n : nat) (st st' : LoopState) (s : Series)
  (a : list bool) :
  loop_body U n st s = Ok st' ->
  hasnans s = false ->
  all_nulls st = Some a ->
  loop_nulls st' = loop_nulls st.
Proof.
  intros H Hn Ha. apply loop_body_Ok in H.
  destruct H as (cd & m & _ & Hm & ->). simpl.
  unfold column_mask in Hm. rewrite Hn, Ha in Hm. symmetry. exact Hm.
Qed.

(** The defect in general: with a null-free first column, a second column
    with a missing cell and a null-free third column, the third mask is the
    second column's, whatever the helpers of [_utils] are. *)
Lemma third_mask_is_second_mask (n : nat) (na nb nc : string)
  (sa sb sc : Series) (st' : LoopState) :
  for_columns U n loop_init [(na, sa); (nb, sb); (nc, sc)] = Ok st' ->
  hasnans sa = false -> hasnans sb = true -> hasnans sc = false ->
  map nulls (input_cols st') = [repeat false n; isnull sb; isnull sb].
Proof.
  simpl. intros H Ha Hb Hc.
  apply bind_Ok_inv in H. destruct H as (st1 & H1 & H).
  apply bind_Ok_inv in H. destruct H as (st2 & H2 & H).
  apply bind_Ok_inv in H. destruct H as (st3 & H3 & H).
  injection H as <-.
  apply loop_body_Ok in H1. destruct H1 as (cd1 & m1 & _ & Hm1 & ->).
  apply loop_body_Ok in H2. destruct H2 as (cd2 & m2 & _ & Hm2 & ->).
  apply loop_body_Ok in H3. destruct H3 as (cd3 & m3 & _ & Hm3 & ->).
  unfold column_mask, next_all_nulls in *. simpl in *.
  rewrite Ha in *. rewrite Hb in *. rewrite Hc in *. simpl in *.
  injection Hm1 as <-. injection Hm2 as <-. injection Hm3 as <-.
  reflexivity.
Qed.

End MaskFacts.

(** C1, on the code: in a table whose first column has no missing cell, whose
    second has one and whose third has none, the third encoded column does
    not get the all-false mask: it gets the mask of the second column. *)
Theorem null_free_column_gets_previous_mask :
  exists c1 c2 c3,
    build_input_columnar ExampleUtils.utils ExampleUtils.frame3 false
    = Ok [c1; c2; c3] /\
    map (fun c : string * Series => isnull (snd c))
        (columns ExampleUtils.frame3)
    = [[false; false]; [true; false]; [false; false]] /\
    map nulls [c1; c2; c3]
    = [[false; false]; [true; false]; [true; false]].
Proof.
  do 3 eexists. split; [vm_compute; reflexivity |].
  split; reflexivity.
Qed.

(** ** Further properties of the resolver *)

Lemma first_valid_None_iff (s : Series) :
  first_valid s = None <-> forallb isnull_val (values s) = true.
Proof.
  split; [| apply first_valid_all_missing].
  unfold first_valid. intros H. apply forallb_forall. intros v Hv.
  pose proof (find_none _ _ H v Hv) as Hn.
  apply negb_false_iff in Hn. exact Hn.
Qed.

(** The wire type the resolver returns is one of the eleven names BOOL,
    TINYINT, SMALLINT, INT, BIGINT, FLOAT, DOUBLE, TIMESTAMP, STR, DATE and
    TIME; it is never VARCHAR, which the encoder's set literal mentions. *)
Theorem resolver_returns_wire_type (s : Series) (t : string) :
  get_mapd_dtype s = Ok t ->
  In t wire_types /\ t <> "VARCHAR".
Proof.
  intros H. pose proof (resolver_range s H) as Hin.
  split; [exact Hin |].
  unfold wire_types in Hin. simpl in Hin.
  repeat (destruct Hin as [<- | Hin]; [discriminate |]).
  contradiction.
Qed.

Lemma resolver_returns_wire_type_witness :
  In "DOUBLE" wire_types /\ "DOUBLE" <> "VARCHAR".
Proof.
  apply (@resolver_returns_wire_type
           (mkSeries float64 [VNaN; VFloat 3 (- 1)]) "DOUBLE").
  reflexivity.
Defined.

(** The resolver raises nothing but IndexError and TypeError, and IndexError
    exactly on an object column without a non-missing cell: a column of a
    known dtype resolves by its dtype even when every cell is missing. *)
Theorem resolver_errors (s : Series) :
  (get_mapd_dtype s = Raise IndexError <->
   is_object_dtype (dtype s) = true /\
   forallb isnull_val (values s) = true) /\
  (forall e, get_mapd_dtype s = Raise e -> e = IndexError \/ e = TypeError).
Proof.
  unfold get_mapd_dtype.
  destruct (is_object_dtype (dtype s)) eqn:Hobj.
  - destruct (first_valid s) as [v |] eqn:Hv.
    + rewrite (from_object_sampled s Hv). split.
      * split.
        -- unfold sampled_object_type. destruct (type_of v); discriminate.
        -- intros [_ Hall]. apply first_valid_None_iff in Hall. congruence.
      * intros e. unfold sampled_object_type.
        destruct (type_of v); intros H; try discriminate;
          injection H as <-; right; reflexivity.
    + rewrite (from_object_all_missing s Hv). split.
      * split; [| reflexivity].
        intros _. split; [reflexivity | apply first_valid_None_iff; exact Hv].
      * intros e H. injection H as <-. left. reflexivity.
  - unfold get_mapd_type_from_known. split.
    + split; [| intros [H _]; discriminate].
      destruct (is_bool_dtype (dtype s)); [discriminate |].
      destruct (is_integer_dtype (dtype s)).
      { destruct (itemsize (dtype s) <=? 1); [discriminate |].
        destruct (itemsize (dtype s) =? 2); [discriminate |].
        destruct (itemsize (dtype s) =? 4); discriminate. }
      destruct (is_float_dtype (dtype s)).
      { destruct (itemsize (dtype s) <=? 4); discriminate. }
      destruct (is_datetime64_any_dtype (dtype s)); discriminate.
    + intros e.
      destruct (is_bool_dtype (dtype s)); [discriminate |].
      destruct (is_integer_dtype (dtype s)).
      { destruct (itemsize (dtype s) <=? 1); [discriminate |].
        destruct (itemsize (dtype s) =? 2); [discriminate |].
        destruct (itemsize (dtype s) =? 4); discriminate. }
      destruct (is_float_dtype (dtype s)).
      { destruct (itemsize (dtype s) <=? 4); discriminate. }
      destruct (is_datetime64_any_dtype (dtype s)); [discriminate |].
      intros H. injection H as <-. right. reflexivity.
Qed.

Lemma resolver_errors_witness :
  get_mapd_dtype (mkSeries object_ [VNaN; VNone; VNaT]) = Raise IndexError /\
  get_mapd_dtype (mkSeries float64 [VNaN; VNaN]) <> Raise IndexError.
Proof.
  split.
  - apply (proj1 (resolver_errors (mkSeries object_ [VNaN; VNone; VNaT]))).
    split; reflexivity.
  - intros H.
    apply (proj1 (resolver_errors (mkSeries float64 [VNaN; VNaN]))) in H.
    destruct H as [H _]. discriminate.
Defined.

(** ** Further properties of the encoder loop *)

Section LoopInvariants.

Variable U : Utils.
Variable n : nat.

Lemma for_columns_masks_with_nulls (cols : list (string * Series)) :
  forall st st',
    for_columns U n st cols = Ok st' ->
    exists outs : list TColumn,
      input_cols st' = input_cols st ++ outs /\
      Forall2 (fun (c : string * Series) tc =>
                 hasnans (snd c) = true -> nulls tc = isnull (snd c))
              cols outs.
Proof.
  induction cols as [| [name s] cols IH]; simpl; intros st st' H.
  - injection H as <-. exists []. rewrite app_nil_r. split; constructor.
  - apply bind_Ok_inv in H. destruct H as (st1 & H1 & H).
    apply loop_body_Ok in H1. destruct H1 as (cd & m & _ & Hm & ->).
    apply IH in H. destruct H as (outs & Hin & Hall). simpl in Hin.
    exists (mkTColumn cd m :: outs). split.
    + rewrite Hin, <- app_assoc. reflexivity.
    + constructor; [| exact Hall].
      simpl. intros Hn. unfold column_mask in Hm. rewrite Hn in Hm.
      injection Hm as <-. reflexivity.
Qed.

Lemma for_columns_all_false (cols : list (string * Series)) :
  forall st st',
    (all_nulls st = None \/
     all_nulls st = Some (repeat false n) /\
     loop_nulls st = Some (repeat false n)) ->
    Forall (fun c : string * Series => hasnans (snd c) = false) cols ->
    for_columns U n st cols = Ok st' ->
    exists outs : list TColumn,
      input_cols st' = input_cols st ++ outs /\
      Forall (fun tc => nulls tc = repeat false n) outs.
Proof.
  induction cols as [| [name s] cols IH]; simpl; intros st st' Hinv Hcols H.
  - injection H as <-. exists []. rewrite app_nil_r. split; constructor.
  - apply Forall_cons_iff in Hcols. destruct Hcols as [Hs Hrest].
    simpl in Hs.
    apply bind_Ok_inv in H. destruct H as (st1 & H1 & H).
    apply loop_body_Ok in H1. destruct H1 as (cd & m & _ & Hm & ->).
    assert (Hmask : m = repeat false n /\
                    next_all_nulls n st s = Some (repeat false n)).
    { unfold column_mask in Hm. unfold next_all_nulls. rewrite Hs in *.
      destruct Hinv as [Ha | [Ha Hl]]; rewrite Ha in *.
      - injection Hm as <-. auto.
      - rewrite Hl in Hm. injection Hm as <-. auto. }
    destruct Hmask as [-> Hnext].
    apply IH in H; [| right; simpl; auto | exact Hrest].
    destruct H as (outs & Hin & Hall). simpl in Hin.
    exists (mkTColumn cd (repeat false n) :: outs). split.
    + rewrite Hin, <- app_assoc. reflexivity.
    + constructor; [reflexivity | exact Hall].
Qed.

Lemma for_columns_mask_lengths (cols : list (string * Series)) :
  forall st st',
    (forall m, loop_nulls st = Some m -> List.length m = n) ->
    Forall (fun c : string * Series => List.length (values (snd c)) = n)
           cols ->
    for_columns U n st cols = Ok st' ->
    exists outs : list TColumn,
      input_cols st' = input_cols st ++ outs /\
      Forall (fun tc => List.length (nulls tc) = n) outs.
Proof.
  induction cols as [| [name s] cols IH]; simpl; intros st st' Hinv Hcols H.
  - injection H as <-. exists []. rewrite app_nil_r. split; constructor.
  - apply Forall_cons_iff in Hcols. destruct Hcols as [Hs Hrest].
    simpl in Hs.
    apply bind_Ok_inv in H. destruct H as (st1 & H1 & H).
    apply loop_body_Ok in H1. destruct H1 as (cd & m & _ & Hm & ->).
    assert (Hlen : List.length m = n).
    { unfold column_mask in Hm. destruct (hasnans s).
      - injection Hm as <-. unfold isnull. rewrite length_map. exact Hs.
      - destruct (all_nulls st).
        + exact (Hinv m Hm).
        + injection Hm as <-. apply repeat_length. }
    apply IH in H; [| simpl; intros m' Hm'; injection Hm' as <-; exact Hlen
                    | exact Hrest].
    destruct H as (outs & Hin & Hall). simpl in Hin.
    exists (mkTColumn cd m :: outs). split.
    + rewrite Hin, <- app_assoc. reflexivity.
    + constructor; [exact Hlen | exact Hall].
Qed.

Lemma for_columns_succeeds (cols : list (string * Series)) :
  forall st,
    (all_nulls st <> None -> loop_nulls st <> None) ->
    Forall (fun c : string * Series => exists cd, column_data U (snd c) = Ok cd)
           cols ->
    exists st', for_columns U n st cols = Ok st'.
Proof.
  induction cols as [| [name s] cols IH]; simpl; intros st Hinv Hcols.
  - exists st. reflexivity.
  - apply Forall_cons_iff in Hcols. destruct Hcols as [(cd & Hcd) Hrest].
    simpl in Hcd.
    rewrite loop_body_split, Hcd. cbn [bind].
    assert (Hm : exists m, column_mask n st s = Some m).
    { unfold column_mask. destruct (hasnans s); [eexists; reflexivity |].
      destruct (all_nulls st) as [a |] eqn:Ha; [| eexists; reflexivity].
      destruct (loop_nulls st) as [m |] eqn:Hl; [eexists; reflexivity |].
      exfalso. apply Hinv; [discriminate | reflexivity]. }
    destruct Hm as (m & Hm). rewrite Hm. cbn [bind].
    apply IH; [| exact Hrest]. simpl. intros _. discriminate.
Qed.

Lemma for_columns_with_nulls_keep_shared (cols : list (string * Series)) :
  forall st st',
    Forall (fun c : string * Series => hasnans (snd c) = true) cols ->
    for_columns U n st cols = Ok st' ->
    all_nulls st' = all_nulls st /\
    exists outs : list TColumn,
      input_cols st' = input_cols st ++ outs /\
      Forall2 (fun (c : string * Series) tc => nulls tc = isnull (snd c))
              cols outs.
Proof.
  induction cols as [| [name s] cols IH]; simpl; intros st st' Hcols H.
  - injection H as <-. split; [reflexivity |].
    exists []. rewrite app_nil_r. split; constructor.
  - apply Forall_cons_iff in Hcols. destruct Hcols as [Hs Hrest].
    simpl in Hs.
    apply bind_Ok_inv in H. destruct H as (st1 & H1 & H).
    apply loop_body_Ok in H1. destruct H1 as (cd & m & _ & Hm & ->).
    unfold column_mask in Hm. rewrite Hs in Hm. injection Hm as <-.
    apply IH in H; [| exact Hrest].
    destruct H as (Hshared & outs & Hin & Hall). simpl in Hshared, Hin.
    split.
    + rewrite Hshared. unfold next_all_nulls. rewrite Hs. reflexivity.
    + exists (mkTColumn cd (isnull s) :: outs). split.
      * rewrite Hin, <- app_assoc. reflexivity.
      * constructor; [reflexivity | exact Hall].
Qed.

Lemma for_columns_shared_built (cols : list (string * Series)) :
  forall st st',
    for_columns U n st cols = Ok st' ->
    all_nulls st <> None \/
    Exists (fun c : string * Series => hasnans (snd c) = false) cols ->
    all_nulls st' <> None.
Proof.
  induction cols as [| [name s] cols IH]; simpl; intros st st' H Hex.
  - injection H as <-. destruct Hex as [Hex | Hex]; [exact Hex |].
    inversion Hex.
  - apply bind_Ok_inv in H. destruct H as (st1 & H1 & H).
    apply loop_body_Ok in H1. destruct H1 as (cd & m & _ & _ & ->).
    apply (IH _ _ H). simpl. unfold next_all_nulls.
    destruct Hex as [Hex | Hex].
    + left. destruct (hasnans s); [exact Hex |].
      destruct (all_nulls st); discriminate.
    + apply Exists_cons in Hex. destruct Hex as [Hs | Hex].
      * left. simpl in Hs. rewrite Hs. destruct (all_nulls st); discriminate.
      * right. exact Hex.
Qed.

Lemma for_columns_length (cols : list (string * Series)) :
  forall st st',
    for_columns U n st cols = Ok st' ->
    List.length (input_cols st')
    = (List.length (input_cols st) + List.length cols)%nat.
Proof.
  intros st st' H. apply for_columns_Ok in H.
  destruct H as (outs & -> & Hall).
  rewrite length_app, (Forall2_length Hall). reflexivity.
Qed.

End LoopInvariants.

Lemma encoded_at_inv (U : Utils) (df : DataFrame) (pi : bool) (i : nat)
  (s : Series) (tc : TColumn) :
  encoded_at U df pi i s tc ->
  exists df1 name st,
    frame_of df pi = Ok df1 /\
    nth_error (columns df1) i = Some (name, s) /\
    for_columns U (len df1) loop_init (columns df1) = Ok st /\
    nth_error (input_cols st) i = Some tc.
Proof.
  intros (df1 & name & out & Hdf & Hs & Hout & Htc).
  unfold build_input_columnar in Hout. fold (frame_of df pi) in Hout.
  rewrite Hdf in Hout. cbn [bind] in Hout.
  apply bind_Ok_inv in Hout. destruct Hout as (st & Hst & Hout).
  injection Hout as <-. exists df1, name, st. auto.
Qed.

Lemma build_input_columnar_inv (U : Utils) (df : DataFrame) (pi : bool)
  (out : list TColumn) :
  build_input_columnar U df pi = Ok out ->
  exists df1 st,
    frame_of df pi = Ok df1 /\
    for_columns U (len df1) loop_init (columns df1) = Ok st /\
    input_cols st = out.
Proof.
  unfold build_input_columnar. fold (frame_of df pi). intros H.
  apply bind_Ok_inv in H. destruct H as (df1 & Hdf & H).
  apply bind_Ok_inv in H. destruct H as (st & Hst & H).
  injection H as <-. exists df1, st. auto.
Qed.

(** A column that has a missing cell is always encoded with its own mask:
    true exactly at its missing cells, whatever columns stand before it. *)
Theorem mask_of_column_with_missing (U : Utils) (df : DataFrame) (pi : bool)
  (i : nat) (s : Series) (tc : TColumn) :
  encoded_at U df pi i s tc ->
  hasnans s = true ->
  nulls tc = isnull s.
Proof.
  intros Henc Hn. apply encoded_at_inv in Henc.
  destruct Henc as (df1 & name & st & _ & Hs & Hst & Htc).
  apply for_columns_masks_with_nulls in Hst.
  destruct Hst as (outs & Hin & Hall). simpl in Hin. subst outs.
  exact (Forall2_nth_error Hall i Hs Htc Hn).
Qed.

Lemma mask_of_column_with_missing_witness :
  nulls ExampleUtils.dates_encoded = [false; true; false].
Proof.
  apply (@mask_of_column_with_missing ExampleUtils.utils
           ExampleUtils.frame_dates true 1%nat
           (mkSeries object_ [VDate 1; VNone; VDate 2])
           ExampleUtils.dates_encoded).
  - exists (mkDataFrame (PlainIndex None (RangeIndex 3))
              (("index", RangeIndex 3) :: columns ExampleUtils.frame_dates)),
      "d".
    eexists. repeat split; vm_compute; reflexivity.
  - reflexivity.
Defined.

(** In a frame whose columns all have [len(df)] cells, every mask the
    encoder emits has [len(df)] entries, also the masks that were carried
    over from an earlier column. *)
Theorem masks_have_frame_length (U : Utils) (df df1 : DataFrame) (pi : bool)
  (out : list TColumn) :
  build_input_columnar U df pi = Ok out ->
  frame_of df pi = Ok df1 ->
  aligned df1 ->
  Forall (fun tc => List.length (nulls tc) = len df1) out.
Proof.
  intros Hout Hdf Hcols. apply build_input_columnar_inv in Hout.
  destruct Hout as (df1' & st & Hdf' & Hst & <-).
  rewrite Hdf in Hdf'. injection Hdf' as <-.
  apply for_columns_mask_lengths in Hst;
    [| simpl; discriminate | exact Hcols].
  destruct Hst as (outs & Hin & Hall). simpl in Hin. subst outs. exact Hall.
Qed.

(** The encoder returns as soon as the frame can be built and the value
    side of every column can: the mask side never fails, the local [nulls]
    being bound from the first iteration on. *)
Theorem encoder_returns_when_columns_encode (U : Utils) (df df1 : DataFrame)
  (pi : bool) :
  frame_of df pi = Ok df1 ->
  Forall (fun c : string * Series => exists cd, column_data U (snd c) = Ok cd)
         (columns df1) ->
  exists out,
    build_input_columnar U df pi = Ok out /\
    List.length out = List.length (columns df1).
Proof.
  intros Hdf Hcols.
  destruct (@for_columns_succeeds U (len df1) (columns df1) loop_init)
    as (st & Hst); [simpl; intros H; exfalso; apply H; reflexivity
                   | exact Hcols |].
  exists (input_cols st). split.
  - unfold build_input_columnar. fold (frame_of df pi).
    rewrite Hdf. cbn [bind]. rewrite Hst. reflexivity.
  - apply for_columns_Ok in Hst. destruct Hst as (outs & Hin & Hall).
    simpl in Hin. subst outs. symmetry. exact (Forall2_length Hall).
Qed.

Lemma masks_have_frame_length_witness :
  exists out,
    build_input_columnar ExampleUtils.utils ExampleUtils.frame3 false = Ok out /\
    Forall (fun tc => List.length (nulls tc) = 2%nat) out.
Proof.
  destruct (build_input_columnar ExampleUtils.utils ExampleUtils.frame3 false)
    as [e | out] eqn:Hout.
  - vm_compute in Hout. discriminate.
  - exists out. split; [reflexivity |].
    apply (@masks_have_frame_length ExampleUtils.utils ExampleUtils.frame3
             ExampleUtils.frame3 false out Hout eq_refl).
    repeat constructor.
Defined.

Lemma encoder_returns_when_columns_encode_witness :
  exists out,
    build_input_columnar ExampleUtils.utils ExampleUtils.frame3 false = Ok out /\
    List.length out = 3%nat.
Proof.
  apply (@encoder_returns_when_columns_encode ExampleUtils.utils
           ExampleUtils.frame3 ExampleUtils.frame3 false eq_refl).
  repeat constructor; eexists; vm_compute; reflexivity.
Defined.

(** ** Further properties of the value side *)

Lemma TColumnData_kwargs_only_slot (sl : string) (buf : Series)
  (cd : TColumnData) :
  TColumnData_kwargs sl buf = Ok cd -> only_slot sl buf cd.
Proof.
  unfold TColumnData_kwargs, only_slot.
  destruct (String.eqb_spec sl "int_col") as [-> | _];
    [intros H; injection H as <-; auto |].
  destruct (String.eqb_spec sl "real_col") as [-> | _];
    [intros H; injection H as <-; auto |].
  destruct (String.eqb_spec sl "str_col") as [-> | _];
    [intros H; injection H as <-; auto |].
  discriminate.
Qed.

Lemma astype_int64_length (x buf : Series) :
  astype_int64 x = Ok buf ->
  List.length (values buf) = List.length (values x).
Proof.
  intros H. apply astype_int64_Ok in H. destruct H as [_ Hall].
  symmetry. exact (Forall2_length Hall).
Qed.

Section ValueSide.

Variable U : Utils.

Lemma column_data_slot (s : Series) (cd : TColumnData) :
  column_data U s = Ok cd ->
  exists t sl buf,
    get_mapd_dtype s = Ok t /\
    mapd_to_slot U t = Some sl /\
    TColumnData_kwargs sl buf = Ok cd.
Proof.
  unfold column_data. intros H.
  apply bind_Ok_inv in H. destruct H as (t & Ht & H).
  apply bind_Ok_inv in H. destruct H as (d1 & _ & H).
  apply bind_Ok_inv in H. destruct H as (d2 & _ & H).
  apply bind_Ok_inv in H. destruct H as (sl & Hsl & H).
  apply bind_Ok_inv in H. destruct H as (buf & _ & H).
  unfold getitem in Hsl.
  destruct (mapd_to_slot U t) as [sl' |] eqn:Hs; [| discriminate].
  injection Hsl as <-. exists t, sl', buf. auto.
Qed.

Lemma column_data_nulls_other (s : Series) (t : string) (cd : TColumnData) :
  get_mapd_dtype s = Ok t -> hasnans s = true -> int_family t = false ->
  column_data U s = Ok cd ->
  exists c na,
    normalized U s t = Ok (Some c) /\
    mapd_to_na U t = Some na /\
    buffer_of cd = Some (fillna c na).
Proof.
  unfold column_data. intros Ht Hn Hfam H.
  rewrite Ht in H. cbn [bind] in H. rewrite Hn, Hfam in H.
  apply bind_Ok_inv in H. destruct H as (d1 & Hd1 & H).
  apply bind_Ok_inv in H. destruct H as (d2 & Hd2 & H).
  apply bind_Ok_inv in Hd2. destruct Hd2 as (c & Hc & Hd2).
  apply bind_Ok_inv in Hd2. destruct Hd2 as (na & Hna & Hd2).
  injection Hd2 as <-.
  apply bind_Ok_inv in H. destruct H as (sl & _ & H).
  apply bind_Ok_inv in H. destruct H as (buf & Hbuf & H).
  simpl in Hbuf. injection Hbuf as <-.
  destruct d1 as [c0 |]; simpl in Hc; [| discriminate].
  injection Hc as <-.
  unfold getitem in Hna. destruct (mapd_to_na U t) as [v |] eqn:Hv;
    [| discriminate].
  injection Hna as <-.
  exists c0, v. repeat split; try assumption.
  exact (TColumnData_kwargs_buffer _ _ H).
Qed.

Lemma column_data_missing_na (s c : Series) (t : string) :
  get_mapd_dtype s = Ok t -> hasnans s = true ->
  normalized U s t = Ok (Some c) ->
  mapd_to_na U t = None ->
  column_data U s = Raise KeyError.
Proof.
  unfold column_data, getitem. intros Ht Hn Hc Hna.
  rewrite Ht. cbn [bind]. rewrite Hc. cbn [bind].
  rewrite Hn. cbn [as_series bind]. rewrite Hna. reflexivity.
Qed.

Lemma column_data_missing_slot (s : Series) (t : string) :
  get_mapd_dtype s = Ok t ->
  mapd_to_slot U t = None ->
  forall cd, column_data U s <> Ok cd.
Proof.
  intros Ht Hsl cd H. apply column_data_slot in H.
  destruct H as (t' & sl & buf & Ht' & Hsl' & _). congruence.
Qed.

Lemma column_data_missing_slot_plain (s : Series) (t : string) :
  get_mapd_dtype s = Ok t -> hasnans s = false -> time_like t = false ->
  mapd_to_slot U t = None ->
  column_data U s = Raise KeyError.
Proof.
  unfold column_data, normalized, getitem. intros Ht Hn Htl Hsl.
  rewrite Ht. cbn [bind]. rewrite Htl, Hn. cbn [bind]. rewrite Hsl.
  reflexivity.
Qed.

Lemma loop_body_column_Raise (n : nat) (st : LoopState) (s : Series)
  (e : PyExc) :
  column_data U s = Raise e -> loop_body U n st s = Raise e.
Proof. intros H. rewrite loop_body_split, H. reflexivity. Qed.

Lemma build_input_columnar_column_Raise (df df1 : DataFrame) (pi : bool)
  (pre post : list (string * Series)) (name : string) (s : Series)
  (e : PyExc) :
  frame_of df pi = Ok df1 ->
  columns df1 = pre ++ (name, s) :: post ->
  (exists st, for_columns U (len df1) loop_init pre = Ok st) ->
  column_data U s = Raise e ->
  build_input_columnar U df pi = Raise e.
Proof.
  unfold build_input_columnar. fold (frame_of df pi).
  intros Hdf Hcols (st & Hst) Hs.
  rewrite Hdf. cbn [bind]. rewrite Hcols, for_columns_app, Hst. simpl.
  rewrite (loop_body_column_Raise (len df1) st s Hs). reflexivity.
Qed.

Lemma build_input_columnar_column_never (df df1 : DataFrame) (pi : bool)
  (name : string) (s : Series) :
  frame_of df pi = Ok df1 ->
  In (name, s) (columns df1) ->
  (forall cd, column_data U s <> Ok cd) ->
  forall out, build_input_columnar U df pi <> Ok out.
Proof.
  intros Hdf Hin Hs out H. apply build_input_columnar_Ok in H.
  destruct H as (df1' & Hdf' & Hall).
  rewrite Hdf in Hdf'. injection Hdf' as <-.
  clear Hdf. induction Hall as [| c tc cs tcs Hc _ IH].
  - contradiction.
  - destruct Hin as [-> | Hin].
    + exact (Hs _ Hc).
    + exact (IH Hin).
Qed.

End ValueSide.

(** A column with a missing cell that resolves to FLOAT, DOUBLE or STR is
    neither cast nor coerced to int64: the buffer is the source column with
    the sentinel of its wire type in the missing cells, under the dtype of
    the source. *)
Theorem float_str_column_sentinel_filled (U : Utils) (df : DataFrame)
  (pi : bool) (i : nat) (s : Series) (tc : TColumn) (t : string) :
  encoded_at U df pi i s tc ->
  get_mapd_dtype s = Ok t ->
  str_in t ["FLOAT"; "DOUBLE"; "STR"] = true ->
  hasnans s = true ->
  exists na buf,
    mapd_to_na U t = Some na /\
    buffer_of (data tc) = Some buf /\
    buf = fillna s na /\
    dtype buf = dtype s /\
    values buf = map (fun x => if isnull_val x then na else x) (values s).
Proof.
  intros Henc Ht Hin Hn.
  pose proof (encoded_at_column_data Henc) as Hcd.
  assert (Hfam : int_family t = false /\ time_like t = false).
  { apply str_in_In in Hin. simpl in Hin.
    destruct Hin as [<- | [<- | [<- | []]]]; split; reflexivity. }
  destruct Hfam as [Hfam Htl].
  destruct (column_data_nulls_other U s Ht Hn Hfam Hcd)
    as (c & na & Hc & Hna & Hbuf).
  unfold normalized in Hc. rewrite Htl in Hc. injection Hc as <-.
  exists na, (fillna s na). repeat split; assumption.
Qed.

Lemma float_str_column_sentinel_filled_witness :
  buffer_of (data ExampleFrames.f_encoded)
  = Some (mkSeries float64 [VNaN; VFloat 3 (- 1)]).
Proof.
  destruct (@float_str_column_sentinel_filled ExampleUtils.utils
              ExampleFrames.small false 2%nat
              (mkSeries float64 [VNaN; VFloat 3 (- 1)])
              ExampleFrames.f_encoded "DOUBLE")
    as (na & buf & Hna & Hbuf & -> & _ & _).
  - exists ExampleFrames.small, "f".
    eexists. repeat split; vm_compute; reflexivity.
  - reflexivity.
  - reflexivity.
  - reflexivity.
  - vm_compute in Hna. injection Hna as <-. exact Hbuf.
Defined.

(** A wire type without an entry in a table of [_utils] is a KeyError: a
    column with a missing cell whose wire type has no sentinel raises it
    when the encoder reaches the column, and so does a plain column whose
    wire type has no slot; a frame that holds a column whose wire type has
    no slot is never encoded. *)
Theorem missing_table_entry_KeyError (U : Utils) (df df1 : DataFrame)
  (pi : bool) (name : string) (s : Series) (t : string) :
  frame_of df pi = Ok df1 ->
  get_mapd_dtype s = Ok t ->
  (forall pre post c,
      columns df1 = pre ++ (name, s) :: post ->
      (exists st, for_columns U (len df1) loop_init pre = Ok st) ->
      hasnans s = true ->
      normalized U s t = Ok (Some c) ->
      mapd_to_na U t = None ->
      build_input_columnar U df pi = Raise KeyError) /\
  (forall pre post,
      columns df1 = pre ++ (name, s) :: post ->
      (exists st, for_columns U (len df1) loop_init pre = Ok st) ->
      hasnans s = false ->
      time_like t = false ->
      mapd_to_slot U t = None ->
      build_input_columnar U df pi = Raise KeyError) /\
  (In (name, s) (columns df1) ->
   mapd_to_slot U t = None ->
   forall out, build_input_columnar U df pi <> Ok out).
Proof.
  intros Hdf Ht. split; [| split].
  - intros pre post c Hcols Hpre Hn Hc Hna.
    eapply build_input_columnar_column_Raise; try eassumption.
    eapply column_data_missing_na; eassumption.
  - intros pre post Hcols Hpre Hn Htl Hsl.
    eapply build_input_columnar_column_Raise; try eassumption.
    eapply column_data_missing_slot_plain; eassumption.
  - intros Hin Hsl.
    eapply build_input_columnar_column_never; try eassumption.
    eapply column_data_missing_slot; eassumption.
Qed.

Lemma missing_table_entry_KeyError_witness :
  build_input_columnar ExampleFrames.utils_no_na ExampleFrames.small false
  = Raise KeyError /\
  (forall out,
      build_input_columnar ExampleFrames.utils_no_slot ExampleFrames.small false
      <> Ok out).
Proof.
  split.
  - destruct (@missing_table_entry_KeyError ExampleFrames.utils_no_na
                ExampleFrames.small ExampleFrames.small false "f"
                (mkSeries float64 [VNaN; VFloat 3 (- 1)]) "DOUBLE"
                eq_refl eq_refl) as (H & _).
    apply (H [("t", mkSeries int8 [VInt (-128); VInt 127]);
              ("u", mkSeries (mkDType K_uint 1) [VInt 0; VInt 255])]
             [] (mkSeries float64 [VNaN; VFloat 3 (- 1)])).
    + reflexivity.
    + eexists. vm_compute. reflexivity.
    + reflexivity.
    + reflexivity.
    + reflexivity.
  - destruct (@missing_table_entry_KeyError ExampleFrames.utils_no_slot
                ExampleFrames.small ExampleFrames.small false "f"
                (mkSeries float64 [VNaN; VFloat 3 (- 1)]) "DOUBLE"
                eq_refl eq_refl) as (_ & _ & H).
    apply H.
    + simpl. auto.
    + reflexivity.
Defined.

(** Every encoded column has exactly one of the three slots set: the one
    that [mapd_to_slot] names for the resolved wire type. *)
Theorem encoded_column_one_slot (U : Utils) (df : DataFrame) (pi : bool)
  (i : nat) (s : Series) (tc : TColumn) :
  encoded_at U df pi i s tc ->
  exists t sl buf,
    get_mapd_dtype s = Ok t /\
    mapd_to_slot U t = Some sl /\
    only_slot sl buf (data tc) /\
    buffer_of (data tc) = Some buf.
Proof.
  intros Henc. pose proof (encoded_at_column_data Henc) as Hcd.
  destruct (column_data_slot U s Hcd) as (t & sl & buf & Ht & Hsl & Hkw).
  exists t, sl, buf. repeat split; try assumption.
  - exact (TColumnData_kwargs_only_slot _ _ Hkw).
  - exact (TColumnData_kwargs_buffer _ _ Hkw).
Qed.

Lemma encoded_column_one_slot_witness :
  exists buf,
    only_slot "real_col" buf (data ExampleFrames.f_encoded).
Proof.
  destruct (@encoded_column_one_slot ExampleUtils.utils
              ExampleFrames.small false 2%nat
              (mkSeries float64 [VNaN; VFloat 3 (- 1)])
              ExampleFrames.f_encoded)
    as (t & sl & buf & Ht & Hsl & Hone & _).
  - exists ExampleFrames.small, "f".
    eexists. repeat split; vm_compute; reflexivity.
  - vm_compute in Ht. injection Ht as <-.
    vm_compute in Hsl. injection Hsl as <-.
    exists buf. exact Hone.
Defined.

(** The buffer of an encoded column has as many cells as the column, for
    every wire type whose cast is in the source: all but DATE and TIMESTAMP,
    whose casts belong to [_utils]. *)
Theorem buffer_has_column_length (U : Utils) (df : DataFrame) (pi : bool)
  (i : nat) (s : Series) (tc : TColumn) (t : string) :
  encoded_at U df pi i s tc ->
  get_mapd_dtype s = Ok t ->
  str_in t ["DATE"; "TIMESTAMP"] = false ->
  exists buf,
    buffer_of (data tc) = Some buf /\
    List.length (values buf) = List.length (values s).
Proof.
  intros Henc Ht Hnot.
  pose proof (encoded_at_column_data Henc) as Hcd.
  assert (Hnorm : forall c, normalized U s t = Ok (Some c) ->
                            List.length (values c) = List.length (values s)).
  { intros c. unfold normalized, time_like.
    destruct (str_in t ["TIME"; "TIMESTAMP"; "DATE"]) eqn:Htl.
    - apply str_in_In in Htl. simpl in Htl.
      destruct Htl as [<- | [<- | [<- | []]]]; try discriminate.
      unfold thrift_cast. simpl. intros H.
      apply bind_Ok_inv in H. destruct H as (vs & Hvs & H).
      injection H as <-. simpl.
      apply mapM_Forall2 in Hvs. rewrite length_map.
      symmetry. exact (Forall2_length Hvs).
    - intros H. injection H as <-. reflexivity. }
  destruct (hasnans s) eqn:Hn.
  - destruct (int_family t) eqn:Hfam.
    + destruct (column_data_nulls_int U s Ht Hn Hfam Hcd)
        as (c & na & buf & Hc & _ & Hbuf & Hslot).
      exists buf. split; [exact Hslot |].
      rewrite (astype_int64_length _ Hbuf). simpl. rewrite length_map.
      exact (Hnorm c Hc).
    + destruct (column_data_nulls_other U s Ht Hn Hfam Hcd)
        as (c & na & Hc & _ & Hslot).
      exists (fillna c na). split; [exact Hslot |].
      simpl. rewrite length_map. exact (Hnorm c Hc).
  - destruct (column_data_no_nulls U s Ht Hn Hcd) as (c & Hc & Hslot).
    exists c. split; [exact Hslot | exact (Hnorm c Hc)].
Qed.

Lemma buffer_has_column_length_witness :
  exists buf,
    buffer_of (data ExampleFrames.f_encoded) = Some buf /\
    List.length (values buf) = 2%nat.
Proof.
  apply (@buffer_has_column_length ExampleUtils.utils
           ExampleFrames.small false 2%nat
           (mkSeries float64 [VNaN; VFloat 3 (- 1)])
           ExampleFrames.f_encoded "DOUBLE").
  - exists ExampleFrames.small, "f".
    eexists. repeat split; vm_compute; reflexivity.
  - reflexivity.
  - reflexivity.
Defined.

(** A TIME column is cast cell by cell before the sentinel is substituted,
    so that [time_to_seconds] is applied to every cell, the missing markers
    included: the column is encoded only if the conversion accepts each of
    its cells, and the cast column is [pd.Series] of the results in
    order. *)
Theorem time_column_cast_reaches_every_cell (U : Utils) (s : Series) :
  get_mapd_dtype s = Ok "TIME" ->
  forall cd,
    column_data U s = Ok cd ->
    exists vs,
      Forall2 (fun x y => time_to_seconds U x = Ok y) (values s) vs /\
      thrift_cast U s "TIME" = Ok (Some (pd_Series vs)).
Proof.
  intros Ht cd H. unfold column_data in H. rewrite Ht in H. cbn [bind] in H.
  apply bind_Ok_inv in H. destruct H as (d1 & Hd1 & _).
  unfold normalized in Hd1. simpl in Hd1.
  pose proof Hd1 as Hcast. unfold thrift_cast in Hd1. simpl in Hd1.
  apply bind_Ok_inv in Hd1. destruct Hd1 as (vs & Hvs & Hd1).
  injection Hd1 as <-.
  exists vs. split; [apply mapM_Forall2; exact Hvs | exact Hcast].
Qed.

Lemma time_column_cast_reaches_every_cell_witness :
  exists vs,
    Forall2 (fun x y => time_to_seconds ExampleUtils.utils x = Ok y)
            (values ExampleFrames.times) vs /\
    thrift_cast ExampleUtils.utils ExampleFrames.times "TIME"
    = Ok (Some (pd_Series vs)).
Proof.
  destruct (column_data ExampleUtils.utils ExampleFrames.times)
    as [e | cd] eqn:Hcd.
  - vm_compute in Hcd. discriminate.
  - exact (@time_column_cast_reaches_every_cell ExampleUtils.utils
             ExampleFrames.times eq_refl cd Hcd).
Defined.

(** ** Further properties of the schema describer *)

Lemma mapM_app {A B : Type} (f : A -> Exc B) (l1 l2 : list A) :
  mapM f (l1 ++ l2) =
  (r1 <- mapM f l1 ;; r2 <- mapM f l2 ;; Ok (r1 ++ r2)).
Proof.
  induction l1 as [| x xs IH]; simpl.
  - destruct (mapM f l2); reflexivity.
  - destruct (f x) as [e | y]; simpl; [reflexivity |].
    rewrite IH. destruct (mapM f xs) as [e | ys]; simpl; [reflexivity |].
    destruct (mapM f l2); reflexivity.
Qed.

Lemma mapM_Raise_In {A B : Type} (f : A -> Exc B) (l : list A) (e : PyExc) :
  mapM f l = Raise e -> exists x, In x l /\ f x = Raise e.
Proof.
  induction l as [| x xs IH]; simpl; intros H.
  - discriminate.
  - destruct (f x) as [e' | y] eqn:Hx; simpl in H.
    + injection H as <-. exists x. auto.
    + destruct (mapM f xs) as [e' | ys]; simpl in H; [| discriminate].
      injection H as <-. destruct (IH eq_refl) as (z & Hz & Hfz).
      exists z. auto.
Qed.

Section DescriberPasses.

Variable TD : string -> option Z.

Let resolve_entry : string * Series -> Exc (string * string) :=
  fun c => t <- get_mapd_dtype (snd c) ;; Ok (fst c, t).

Let describe_entry : string * string -> Exc TColumnType :=
  fun nt => v <- getattr_TDatumType TD (snd nt) ;;
            Ok (mkTColumnType (fst nt) (mkTTypeInfo v)).

Lemma build_row_desc_passes (df df1 : DataFrame) (pi : bool) :
  frame_of df pi = Ok df1 ->
  build_row_desc TD true (Obj_DataFrame df) pi =
  (dtypes <- mapM resolve_entry (columns df1) ;; mapM describe_entry dtypes).
Proof.
  unfold build_row_desc. simpl. fold (frame_of df pi).
  intros ->. reflexivity.
Qed.

Lemma resolve_entries_Ok (cols : list (string * Series)) :
  Forall (fun c => exists t, get_mapd_dtype (snd c) = Ok t) cols ->
  exists r, mapM resolve_entry cols = Ok r.
Proof.
  intros H. apply mapM_Forall_Ok.
  eapply Forall_impl; [| exact H].
  intros c (t & Ht). exists (fst c, t).
  unfold resolve_entry. rewrite Ht. reflexivity.
Qed.

Lemma describe_entries_Ok (cols : list (string * Series))
  (r : list (string * string)) :
  mapM resolve_entry cols = Ok r ->
  Forall (fun c => exists t v,
              get_mapd_dtype (snd c) = Ok t /\ TD t = Some v) cols ->
  exists rd, mapM describe_entry r = Ok rd.
Proof.
  revert r. induction cols as [| c cs IH]; simpl; intros r Hr Hall.
  - injection Hr as <-. exists []. reflexivity.
  - apply Forall_cons_iff in Hall. destruct Hall as [(t & v & Ht & Hv) Hall].
    apply bind_Ok_inv in Hr. destruct Hr as (y & Hy & Hr).
    apply bind_Ok_inv in Hr. destruct Hr as (ys & Hys & Hr).
    injection Hr as <-.
    unfold resolve_entry in Hy. rewrite Ht in Hy. injection Hy as <-.
    destruct (IH ys Hys Hall) as (rd & Hrd).
    simpl. unfold describe_entry at 1, getattr_TDatumType. simpl.
    rewrite Hv. simpl. rewrite Hrd. simpl. eexists. reflexivity.
Qed.

Lemma describe_entry_Raise (nt : string * string) (e : PyExc) :
  describe_entry nt = Raise e -> e = AttributeError.
Proof.
  unfold describe_entry, getattr_TDatumType.
  destruct (TD (snd nt)); simpl; intros H; [discriminate |].
  injection H as <-. reflexivity.
Qed.

End DescriberPasses.

(** The describer works in two passes: it resolves every column first and
    only then looks the wire types up in [TDatumType]. When all columns
    resolve, the first wire type that is no member raises AttributeError;
    when a column does not resolve, its error comes out even if an earlier
    column has a wire type that is no member. *)
Theorem describer_two_passes (TD : string -> option Z) (df df1 : DataFrame)
  (pi : bool) (pre post : list (string * Series)) (name : string)
  (s : Series) :
  frame_of df pi = Ok df1 ->
  columns df1 = pre ++ (name, s) :: post ->
  (forall t,
      Forall (fun c => exists t', get_mapd_dtype (snd c) = Ok t') (columns df1) ->
      Forall (fun c => exists t' v,
                  get_mapd_dtype (snd c) = Ok t' /\ TD t' = Some v) pre ->
      get_mapd_dtype s = Ok t ->
      TD t = None ->
      build_row_desc TD true (Obj_DataFrame df) pi = Raise AttributeError) /\
  (forall e,
      Forall (fun c => exists t', get_mapd_dtype (snd c) = Ok t') pre ->
      get_mapd_dtype s = Raise e ->
      build_row_desc TD true (Obj_DataFrame df) pi = Raise e).
Proof.
  intros Hdf Hcols. split.
  - intros t Hall Hpre Ht Hnone.
    rewrite (build_row_desc_passes TD df pi Hdf).
    rewrite Hcols in *. rewrite mapM_app.
    apply Forall_app in Hall. destruct Hall as [Hall_pre Hall_rest].
    destruct (resolve_entries_Ok Hall_pre) as (r1 & Hr1).
    destruct (resolve_entries_Ok Hall_rest) as (r2 & Hr2).
    rewrite Hr1, Hr2. cbn [bind].
    destruct (@describe_entries_Ok TD pre r1 Hr1 Hpre) as (rd1 & Hrd1).
    simpl in Hr2. rewrite Ht in Hr2. cbn [bind] in Hr2.
    apply bind_Ok_inv in Hr2. destruct Hr2 as (ys & _ & Hr2).
    injection Hr2 as <-.
    apply (mapM_app_Raise _ r1 ys (name, t) Hrd1).
    unfold getattr_TDatumType. simpl. rewrite Hnone. reflexivity.
  - intros e Hpre Hs.
    eapply build_row_desc_resolver_Raise; eassumption.
Qed.

Lemma describer_two_passes_witness :
  build_row_desc ExampleFrames.datum_type_no_tinyint true
    (Obj_DataFrame ExampleFrames.small) false = Raise AttributeError /\
  build_row_desc ExampleFrames.datum_type_no_tinyint true
    (Obj_DataFrame
       (mkDataFrame (PlainIndex None (RangeIndex 2))
          [ ("t", mkSeries int8 [VInt 1; VInt 2]);
            ("m", mkSeries object_ [VNone; VNone]) ])) false
  = Raise IndexError.
Proof.
  split.
  - destruct (@describer_two_passes ExampleFrames.datum_type_no_tinyint
                ExampleFrames.small ExampleFrames.small false []
                [("u", mkSeries (mkDType K_uint 1) [VInt 0; VInt 255]);
                 ("f", mkSeries float64 [VNaN; VFloat 3 (- 1)])]
                "t" (mkSeries int8 [VInt (-128); VInt 127])
                eq_refl eq_refl) as (H & _).
    apply (H "TINYINT").
    + repeat constructor; eexists; vm_compute; reflexivity.
    + constructor.
    + reflexivity.
    + reflexivity.
  - destruct (@describer_two_passes ExampleFrames.datum_type_no_tinyint
                (mkDataFrame (PlainIndex None (RangeIndex 2))
                   [ ("t", mkSeries int8 [VInt 1; VInt 2]);
                     ("m", mkSeries object_ [VNone; VNone]) ])
                _ false
                [("t", mkSeries int8 [VInt 1; VInt 2])] []
                "m" (mkSeries object_ [VNone; VNone])
                eq_refl eq_refl) as (_ & H).
    apply H.
    + repeat constructor. eexists. vm_compute. reflexivity.
    + reflexivity.
Defined.

(** A frame that the encoder accepts is one whose columns all resolve: on
    it the describer can only fail with AttributeError, and when it returns,
    its entries and the encoded columns run in parallel, entry [i] and
    encoded column [i] both coming from column [i] of the frame. *)
Theorem encodable_frame_describes (U : Utils) (TD : string -> option Z)
  (df : DataFrame) (pi : bool) (out : list TColumn) :
  build_input_columnar U df pi = Ok out ->
  (forall e,
      build_row_desc TD true (Obj_DataFrame df) pi = Raise e ->
      e = AttributeError) /\
  (forall rd,
      build_row_desc TD true (Obj_DataFrame df) pi = Ok rd ->
      exists df1,
        frame_of df pi = Ok df1 /\
        List.length rd = List.length out /\
        List.length rd = List.length (columns df1) /\
        forall i r tc,
          nth_error rd i = Some r -> nth_error out i = Some tc ->
          exists c,
            nth_error (columns df1) i = Some c /\
            describes TD c r /\ encodes U c tc).
Proof.
  intros Hout. apply build_input_columnar_Ok in Hout.
  destruct Hout as (df1 & Hdf & Henc). split.
  - intros e H. rewrite (build_row_desc_passes TD df pi Hdf) in H.
    assert (Hres : Forall (fun c : string * Series =>
                             exists t, get_mapd_dtype (snd c) = Ok t)
                          (columns df1)).
    { clear - Henc. induction Henc as [| c tc cs tcs Hc _ IH]; constructor.
      - destruct (column_data_slot U (snd c) Hc) as (t & _ & _ & Ht & _).
        exists t. exact Ht.
      - exact IH. }
    destruct (resolve_entries_Ok Hres) as (r & Hr).
    rewrite Hr in H. cbn [bind] in H.
    apply mapM_Raise_In in H. destruct H as (nt & _ & Hnt).
    exact (describe_entry_Raise TD nt Hnt).
  - intros rd H. apply build_row_desc_Ok in H.
    destruct H as (df1' & Hdf' & Hdesc).
    rewrite Hdf in Hdf'. injection Hdf' as <-.
    exists df1. split; [exact Hdf |]. split; [| split].
    + rewrite <- (Forall2_length Hdesc). exact (Forall2_length Henc).
    + symmetry. exact (Forall2_length Hdesc).
    + intros i r tc Hr Htc.
      destruct (nth_error (columns df1) i) as [c |] eqn:Hc.
      * exists c. split; [reflexivity |]. split.
        -- exact (Forall2_nth_error Hdesc i Hc Hr).
        -- exact (Forall2_nth_error Henc i Hc Htc).
      * exfalso. apply nth_error_None in Hc.
        assert (Hlt : (i < List.length out)%nat).
        { apply nth_error_Some. congruence. }
        rewrite <- (Forall2_length Henc) in Hlt. lia.
Qed.

Lemma encodable_frame_describes_witness :
  exists rd,
    build_row_desc ExampleUtils.datum_type true
      (Obj_DataFrame ExampleUtils.frame_dates) true = Ok rd /\
    List.length rd = 3%nat.
Proof.
  destruct (build_input_columnar ExampleUtils.utils ExampleUtils.frame_dates
              true) as [e | out] eqn:Hout.
  - vm_compute in Hout. discriminate.
  - destruct (build_row_desc ExampleUtils.datum_type true
                (Obj_DataFrame ExampleUtils.frame_dates) true)
      as [e | rd] eqn:Hrd.
    + vm_compute in Hrd. discriminate.
    + exists rd. split; [reflexivity |].
      destruct (@encodable_frame_describes ExampleUtils.utils
                  ExampleUtils.datum_type ExampleUtils.frame_dates true out
                  Hout) as (_ & H).
      destruct (H rd Hrd) as (df1 & _ & Hlen & _). rewrite Hlen.
      vm_compute in Hout. injection Hout as <-. reflexivity.
Defined.

(** ** Widening of int8 columns *)

Lemma astype_i2_Ok (s s' : Series) :
  astype_i2 s = Ok s' ->
  dtype s' = int16 /\
  Forall2 (fun a b => to_int16 a = Ok b) (values s) (values s').
Proof.
  unfold astype_i2. intros H.
  apply bind_Ok_inv in H. destruct H as (vs & Hvs & H).
  injection H as <-. simpl. split; [reflexivity |].
  apply mapM_Forall2. exact Hvs.
Qed.

Lemma widen_column_Ok (c c' : string * Series) :
  widen_column c = Ok c' ->
  fst c' = fst c /\
  is_int8 (dtype (snd c')) = false /\
  (if is_int8 (dtype (snd c)) then dtype (snd c') = int16 else c' = c).
Proof.
  unfold widen_column. destruct (is_int8 (dtype (snd c))) eqn:H8; intros H.
  - apply bind_Ok_inv in H. destruct H as (s' & Hs' & H).
    injection H as <-. simpl.
    apply astype_i2_Ok in Hs'. destruct Hs' as [Hdt _].
    rewrite Hdt. auto.
  - injection H as <-. auto.
Qed.

Lemma widen_column_stable (c : string * Series) :
  is_int8 (dtype (snd c)) = false -> widen_column c = Ok c.
Proof. unfold widen_column. intros ->. reflexivity. Qed.

Lemma mapM_stable {A : Type} (f : A -> Exc A) (l : list A) :
  Forall (fun x => f x = Ok x) l -> mapM f l = Ok l.
Proof.
  induction 1 as [| x xs Hx _ IH]; simpl.
  - reflexivity.
  - rewrite Hx, IH. reflexivity.
Qed.

Lemma wrap_signed_int8 (z : Z) :
  in_int8 z = true -> wrap_signed 16 z = z.
Proof.
  unfold in_int8, wrap_signed. intros H. apply andb_true_iff in H.
  destruct H as [H1 H2]. apply Z.leb_le in H1. apply Z.leb_le in H2.
  change (2 ^ 7) with 128 in *. change (2 ^ (16 - 1)) with 32768.
  change (2 ^ 16) with 65536.
  rewrite Z.mod_small; lia.
Qed.

Lemma astype_i2_int8_cells (s : Series) :
  int8_cells s -> astype_i2 s = Ok (mkSeries int16 (values s)).
Proof.
  unfold int8_cells, astype_i2. intros H.
  assert (Hm : mapM to_int16 (values s) = Ok (values s)).
  { apply mapM_stable. eapply Forall_impl; [| exact H].
    intros v (z & -> & Hz). unfold to_int16. simpl.
    rewrite (wrap_signed_int8 z Hz). reflexivity. }
  rewrite Hm. reflexivity.
Qed.

(** [_cast_int8] on a DataFrame returns a DataFrame with the same index and
    the same labels in the same order, in which every int8 column has become
    an int16 column and every other column is as it was. No int8 column is
    left, so that a second run changes nothing. *)
Theorem cast_int8_widens (df : DataFrame) (r : PyObject) :
  _cast_int8 (Obj_DataFrame df) = Ok r ->
  exists df',
    r = Obj_DataFrame df' /\
    index df' = index df /\
    map fst (columns df') = map fst (columns df) /\
    Forall2 (fun c c' : string * Series =>
               if is_int8 (dtype (snd c)) then dtype (snd c') = int16
               else c' = c)
            (columns df) (columns df') /\
    Forall (fun c : string * Series => is_int8 (dtype (snd c)) = false)
           (columns df') /\
    _cast_int8 r = Ok r.
Proof.
  unfold _cast_int8 at 1. intros H.
  apply bind_Ok_inv in H. destruct H as (cols & Hcols & H).
  injection H as <-.
  exists (mkDataFrame (index df) cols). simpl.
  apply mapM_Forall2 in Hcols.
  assert (Hno : Forall (fun c : string * Series =>
                          is_int8 (dtype (snd c)) = false) cols).
  { clear - Hcols. induction Hcols as [| c c' cs cs' Hc _ IH]; constructor.
    - apply widen_column_Ok in Hc. apply Hc.
    - exact IH. }
  repeat split; try reflexivity.
  - clear - Hcols. induction Hcols as [| c c' cs cs' Hc _ IH]; simpl.
    + reflexivity.
    + apply widen_column_Ok in Hc. destruct Hc as (-> & _). rewrite IH.
      reflexivity.
  - clear - Hcols. induction Hcols as [| c c' cs cs' Hc _ IH]; constructor.
    + apply widen_column_Ok in Hc. apply Hc.
    + exact IH.
  - exact Hno.
  - rewrite mapM_stable; [destruct df; reflexivity |].
    eapply Forall_impl; [| exact Hno].
    intros c Hc. apply widen_column_stable. exact Hc.
Qed.

Lemma cast_int8_widens_witness :
  _cast_int8 (Obj_DataFrame ExampleFrames.small_widened)
  = Ok (Obj_DataFrame ExampleFrames.small_widened).
Proof.
  destruct (@cast_int8_widens ExampleFrames.small
              (Obj_DataFrame ExampleFrames.small_widened))
    as (df' & _ & _ & _ & _ & _ & H).
  - vm_compute. reflexivity.
  - exact H.
Defined.

(** After [_cast_int8] a column that was int8, and resolved to TINYINT,
    resolves to SMALLINT; every other column resolves as before, an
    unsigned 1-byte column still to TINYINT. *)
Theorem cast_int8_resolution (df df' : DataFrame) :
  _cast_int8 (Obj_DataFrame df) = Ok (Obj_DataFrame df') ->
  Forall2 (fun c c' : string * Series =>
             if is_int8 (dtype (snd c))
             then get_mapd_dtype (snd c) = Ok "TINYINT" /\
                  get_mapd_dtype (snd c') = Ok "SMALLINT"
             else get_mapd_dtype (snd c') = get_mapd_dtype (snd c))
          (columns df) (columns df').
Proof.
  intros H. apply cast_int8_widens in H.
  destruct H as (df1 & Heq & _ & _ & Hall & _).
  injection Heq as <-.
  induction Hall as [| c c' cs cs' Hc _ IH]; constructor; [| exact IH].
  destruct (is_int8 (dtype (snd c))) eqn:H8.
  - split.
    + unfold is_int8 in H8. unfold get_mapd_dtype, get_mapd_type_from_known,
        is_object_dtype, is_bool_dtype, is_integer_dtype.
      destruct (kind (dtype (snd c))); try discriminate.
      apply Z.eqb_eq in H8. rewrite H8. reflexivity.
    + unfold get_mapd_dtype. rewrite Hc. reflexivity.
  - rewrite Hc. reflexivity.
Qed.

Lemma cast_int8_resolution_witness :
  get_mapd_dtype (mkSeries int8 [VInt (-128); VInt 127]) = Ok "TINYINT" /\
  get_mapd_dtype (mkSeries int16 [VInt (-128); VInt 127]) = Ok "SMALLINT".
Proof.
  pose proof (@cast_int8_resolution ExampleFrames.small
                ExampleFrames.small_widened eq_refl) as H.
  apply Forall2_cons_iff in H. destruct H as [H _]. exact H.
Defined.

(** On a frame whose int8 columns hold integers of the int8 range,
    [_cast_int8] returns, and it changes no cell and no column length. *)
Theorem cast_int8_keeps_cells (df : DataFrame) :
  Forall (fun c : string * Series =>
            is_int8 (dtype (snd c)) = true -> int8_cells (snd c))
         (columns df) ->
  exists df',
    _cast_int8 (Obj_DataFrame df) = Ok (Obj_DataFrame df') /\
    map (fun c : string * Series => values (snd c)) (columns df')
    = map (fun c : string * Series => values (snd c)) (columns df) /\
    len df' = len df.
Proof.
  intros Hwf.
  assert (H : exists cols,
             mapM widen_column (columns df) = Ok cols /\
             map (fun c : string * Series => values (snd c)) cols
             = map (fun c : string * Series => values (snd c)) (columns df)).
  { induction Hwf as [| c cs Hc _ (cols & Hcols & Hvals)]; simpl.
    - exists []. auto.
    - unfold widen_column at 1.
      destruct (is_int8 (dtype (snd c))) eqn:H8.
      + rewrite (astype_i2_int8_cells (Hc eq_refl)). cbn [bind].
        rewrite Hcols. cbn [bind]. eexists. split; [reflexivity |].
        simpl. rewrite Hvals. reflexivity.
      + cbn [bind]. rewrite Hcols. cbn [bind]. eexists.
        split; [reflexivity |]. simpl. rewrite Hvals. reflexivity. }
  destruct H as (cols & Hcols & Hvals).
  exists (mkDataFrame (index df) cols).
  unfold _cast_int8. rewrite Hcols. auto.
Qed.

Lemma cast_int8_keeps_cells_witness :
  exists df',
    _cast_int8 (Obj_DataFrame ExampleFrames.small) = Ok (Obj_DataFrame df') /\
    map (fun c : string * Series => values (snd c)) (columns df')
    = [[VInt (-128); VInt 127]; [VInt 0; VInt 255]; [VNaN; VFloat 3 (- 1)]].
Proof.
  destruct (@cast_int8_keeps_cells ExampleFrames.small)
    as (df' & H & Hvals & _).
  - constructor.
    + intros _. unfold int8_cells. simpl.
      constructor; [exists (-128); split; reflexivity |].
      constructor; [exists 127; split; reflexivity | constructor].
    + constructor; [intros H; discriminate |].
      constructor; [intros H; discriminate | constructor].
  - exists df'. split; [exact H | exact Hvals].
Defined.

(** ** When the masks are right, and when they are not *)

(** When the columns with a missing cell all stand before the columns
    without one, every mask is right: the mask of its own column where the
    column has a missing cell, the all-false mask otherwise. *)
Theorem masks_right_when_missing_columns_first (U : Utils)
  (df df1 : DataFrame) (pi : bool) (out : list TColumn)
  (with_missing without : list (string * Series)) :
  build_input_columnar U df pi = Ok out ->
  frame_of df pi = Ok df1 ->
  columns df1 = with_missing ++ without ->
  Forall (fun c : string * Series => hasnans (snd c) = true) with_missing ->
  Forall (fun c : string * Series => hasnans (snd c) = false) without ->
  exists outs1 outs2,
    out = outs1 ++ outs2 /\
    Forall2 (fun (c : string * Series) tc => nulls tc = isnull (snd c))
            with_missing outs1 /\
    List.length outs2 = List.length without /\
    Forall (fun tc => nulls tc = repeat false (len df1)) outs2.
Proof.
  intros Hout Hdf Hcols Hwith Hwithout.
  apply build_input_columnar_inv in Hout.
  destruct Hout as (df1' & st & Hdf' & Hst & <-).
  rewrite Hdf in Hdf'. injection Hdf' as <-.
  rewrite Hcols, for_columns_app in Hst.
  apply bind_Ok_inv in Hst. destruct Hst as (st1 & Hst1 & Hst2).
  pose proof (@for_columns_length _ _ _ _ _ Hst2) as Hlen.
  apply for_columns_with_nulls_keep_shared in Hst1; [| exact Hwith].
  destruct Hst1 as (Hshared & outs1 & Hin1 & Hall1). simpl in Hshared, Hin1.
  apply for_columns_all_false in Hst2; [| left; exact Hshared | exact Hwithout].
  destruct Hst2 as (outs2 & Hin2 & Hall2).
  exists outs1, outs2. rewrite Hin2, Hin1. repeat split; try assumption.
  rewrite Hin2, length_app in Hlen. lia.
Qed.

Lemma masks_right_when_missing_columns_first_witness :
  exists out,
    build_input_columnar ExampleUtils.utils ExampleUtils.frame_dates false
    = Ok out /\
    map nulls out = [[false; true; false]; [false; false; false]].
Proof.
  destruct (build_input_columnar ExampleUtils.utils ExampleUtils.frame_dates
              false) as [e | out] eqn:Hout.
  - vm_compute in Hout. discriminate.
  - exists out. split; [reflexivity |].
    destruct (@masks_right_when_missing_columns_first ExampleUtils.utils
                ExampleUtils.frame_dates ExampleUtils.frame_dates false out
                [("d", mkSeries object_ [VDate 1; VNone; VDate 2])]
                [("s", mkSeries object_ [VStr "x"; VStr "y"; VStr "z"])]
                Hout eq_refl eq_refl)
      as (outs1 & outs2 & -> & H1 & Hlen & H2).
    + repeat constructor.
    + repeat constructor.
    + inversion H1 as [| c tc cs tcs Hc Hrest]; subst.
      inversion Hrest; subst.
      destruct outs2 as [| tc2 [| tc3 outs2]]; try discriminate.
      inversion H2 as [| x xs Hx _]; subst.
      simpl. rewrite Hc, Hx. reflexivity.
Defined.

(** Once a column without a missing cell has been encoded, a column without
    a missing cell that comes right after a column with one is emitted with
    the mask of that column instead of the all-false mask. *)
Theorem stale_mask_after_missing_column (U : Utils) (df df1 : DataFrame)
  (pi : bool) (out : list TColumn) (pre post : list (string * Series))
  (nb nc : string) (sb sc : Series) :
  build_input_columnar U df pi = Ok out ->
  frame_of df pi = Ok df1 ->
  columns df1 = pre ++ (nb, sb) :: (nc, sc) :: post ->
  Exists (fun c : string * Series => hasnans (snd c) = false) pre ->
  hasnans sb = true ->
  hasnans sc = false ->
  exists tc,
    nth_error out (S (List.length pre)) = Some tc /\
    nulls tc = isnull sb.
Proof.
  intros Hout Hdf Hcols Hex Hb Hc.
  apply build_input_columnar_inv in Hout.
  destruct Hout as (df1' & st & Hdf' & Hst & <-).
  rewrite Hdf in Hdf'. injection Hdf' as <-.
  rewrite Hcols, for_columns_app in Hst.
  apply bind_Ok_inv in Hst. destruct Hst as (st1 & Hst1 & Hst).
  pose proof (@for_columns_length _ _ _ _ _ Hst1) as Hlen1. simpl in Hlen1.
  pose proof (@for_columns_shared_built _ _ _ _ _ Hst1 (or_intror Hex))
    as Hshared.
  simpl in Hst.
  apply bind_Ok_inv in Hst. destruct Hst as (st2 & Hst2 & Hst).
  apply bind_Ok_inv in Hst. destruct Hst as (st3 & Hst3 & Hst).
  apply loop_body_Ok in Hst2. destruct Hst2 as (cd2 & m2 & _ & Hm2 & ->).
  apply loop_body_Ok in Hst3. destruct Hst3 as (cd3 & m3 & _ & Hm3 & ->).
  unfold column_mask in Hm2, Hm3. simpl in Hm3.
  rewrite Hb in Hm2. injection Hm2 as <-.
  unfold next_all_nulls in Hm3. rewrite Hc, Hb in Hm3.
  destruct (all_nulls st1) as [a |]; [| exfalso; apply Hshared; reflexivity].
  injection Hm3 as <-.
  apply for_columns_Ok in Hst. destruct Hst as (outs & Hin & _).
  simpl in Hin. exists (mkTColumn cd3 (isnull sb)). split; [| reflexivity].
  rewrite Hin, <- !app_assoc.
  rewrite nth_error_app2; rewrite Hlen1; [| lia].
  replace (S (List.length pre) - List.length pre)%nat with 1%nat by lia.
  reflexivity.
Qed.

Lemma stale_mask_after_missing_column_witness :
  exists out tc,
    build_input_columnar ExampleUtils.utils ExampleUtils.frame_dates true
    = Ok out /\
    nth_error out 2 = Some tc /\
    nulls tc = [false; true; false].
Proof.
  destruct (build_input_columnar ExampleUtils.utils ExampleUtils.frame_dates
              true) as [e | out] eqn:Hout.
  - vm_compute in Hout. discriminate.
  - destruct (@stale_mask_after_missing_column ExampleUtils.utils
                ExampleUtils.frame_dates
                (mkDataFrame (PlainIndex None (RangeIndex 3))
                   (("index", RangeIndex 3)
                    :: columns ExampleUtils.frame_dates))
                true out [("index", RangeIndex 3)] []
                "d" "s" (mkSeries object_ [VDate 1; VNone; VDate 2])
                (mkSeries object_ [VStr "x"; VStr "y"; VStr "z"])
                Hout eq_refl eq_refl) as (tc & Htc & Hmask).
    + constructor. reflexivity.
    + reflexivity.
    + reflexivity.
    + exists out, tc. split; [reflexivity |]. split; assumption.
Defined.

(** ** The two modes of the encoder *)

Lemma encodes_functional (U : Utils) (cols : list (string * Series))
  (l1 l2 : list TColumn) :
  Forall2 (encodes U) cols l1 -> Forall2 (encodes U) cols l2 ->
  map data l1 = map data l2.
Proof.
  intros H1. revert l2. induction H1 as [| c tc cs tcs Hc _ IH]; intros l2 H2.
  - inversion H2. reflexivity.
  - inversion H2 as [| c' tc' cs' tcs' Hc' Hrest]; subst. simpl.
    unfold encodes in Hc, Hc'. rewrite Hc in Hc'. injection Hc' as <-.
    f_equal. exact (IH _ Hrest).
Qed.

(** The value side does not depend on [preserve_index]: when the encoder
    returns with the index levels in front, it also returns without them,
    and the [TColumnData] of the table's columns are the same in both
    results. The masks need not be: the index levels are more columns in
    front. *)
Theorem preserve_index_keeps_value_side (U : Utils) (df : DataFrame)
  (out : list TColumn) :
  build_input_columnar U df true = Ok out ->
  exists idx rest out',
    out = idx ++ rest /\
    List.length idx = List.length (index_levels (index df)) /\
    build_input_columnar U df false = Ok out' /\
    map data out' = map data rest.
Proof.
  intros Hout. apply build_input_columnar_Ok in Hout.
  destruct Hout as (df1 & Hdf & Hall). simpl in Hdf.
  pose proof (reset_index_Ok df Hdf) as Heq. subst df1. simpl in Hall.
  apply Forall2_app_inv_l in Hall.
  destruct Hall as (idx & rest & Hidx & Hrest & ->).
  assert (Hcols : Forall (fun c : string * Series =>
                            exists cd, column_data U (snd c) = Ok cd)
                         (columns df)).
  { clear - Hrest. induction Hrest as [| c tc cs tcs Hc _ IH]; constructor.
    - exists (data tc). exact Hc.
    - exact IH. }
  destruct (@for_columns_succeeds U (len df) (columns df) loop_init)
    as (st & Hst); [simpl; intros H; exfalso; apply H; reflexivity
                   | exact Hcols |].
  exists idx, rest, (input_cols st). split; [reflexivity |]. split.
  - rewrite <- (Forall2_length Hidx). apply index_columns_length.
  - split.
    + unfold build_input_columnar. cbn [bind]. rewrite Hst. reflexivity.
    + apply for_columns_Ok in Hst. destruct Hst as (outs & Hin & Hall').
      simpl in Hin. subst outs. exact (encodes_functional Hall' Hrest).
Qed.

Lemma preserve_index_keeps_value_side_witness :
  exists out',
    build_input_columnar ExampleUtils.utils ExampleFrames.two_level false
    = Ok out' /\
    List.length out' = 1%nat.
Proof.
  destruct (build_input_columnar ExampleUtils.utils ExampleFrames.two_level
              true) as [e | out] eqn:Hout.
  - vm_compute in Hout. discriminate.
  - assert (Htotal : List.length out = 3%nat).
    { pose proof Hout as Hc. vm_compute in Hc. injection Hc as <-.
      reflexivity. }
    destruct (@preserve_index_keeps_value_side ExampleUtils.utils
                ExampleFrames.two_level out Hout)
      as (idx & rest & out' & Heq & Hlen & Hout' & Hdata).
    exists out'. split; [exact Hout' |].
    rewrite <- (length_map data), Hdata, length_map.
    rewrite Heq, length_app, Hlen in Htotal. simpl in Htotal. lia.
Defined.
